(** * bigOcalculator: the measurement-and-classification engine

    A shallow embedding of [src/calculator.js] (runAnalysis, calculateRMSE,
    determineComplexity) and [src/utils/analysisRunner.js]
    (runSingleAnalysis), with the properties its specification states;
    then of the code around it: the test algorithms, the size plans of the
    command line and of the web form, what is shown of a classification,
    the reducer of the web form, and the earlier, R-squared based
    calculator.

    JavaScript numbers are kept behind an interface, [Number], with two
    instances: [binary64], the IEEE 754 doubles the engine executes
    (Rocq's primitive floats, so closed terms evaluate exactly as in the
    engine), and [exact], the real numbers the specification's data model
    speaks of. *)

From Stdlib Require Import ZArith NArith List String Bool Reals Lra Lia.
From Stdlib Require Import Sorting.Sorted Permutation.
From Stdlib Require Import Floats.
From Equations Require Import Equations.
Import ListNotations.

Set Implicit Arguments.

(* ------------------------------------------------------------------ *)
(** ** Outcomes of a JavaScript call *)

Inductive Outcome (A : Type) : Type :=
| Returns (a : A)
| Throws (msg : string)
| Diverges.

Arguments Throws {A} msg.
Arguments Diverges {A}.

Definition bind {A B} (o : Outcome A) (k : A -> Outcome B) : Outcome B :=
  match o with
  | Returns a => k a
  | Throws msg => Throws msg
  | Diverges => Diverges
  end.

Declare Scope js_scope.
Delimit Scope js_scope with js.
Notation "x <- e ;; k" := (bind e (fun x => k))
  (at level 61, e at next level, right associativity) : js_scope.
Notation "' p <- e ;; k" := (bind e (fun x => let p := x in k))
  (at level 61, p pattern, e at next level, right associativity) : js_scope.

(* ------------------------------------------------------------------ *)
(** ** The JavaScript Number interface *)

Class Number (num : Type) : Type := {
  of_Z : Z -> num;                  (* an integer literal or counter *)
  nadd : num -> num -> num;         (* a + b *)
  nsub : num -> num -> num;         (* a - b *)
  nmul : num -> num -> num;         (* a * b *)
  ndiv : num -> num -> num;         (* a / b *)
  nopp : num -> num;                (* -a *)
  nsqrt : num -> num;               (* Math.sqrt *)
  nlog : num -> num;                (* Math.log *)
  nfloor : num -> num;              (* Math.floor *)
  nmax : num -> num -> num;         (* Math.max *)
  nmin : num -> num -> num;         (* Math.min *)
  nltb : num -> num -> bool;        (* a < b *)
  nleb : num -> num -> bool;        (* a <= b *)
  truthy : num -> bool;             (* ToBoolean: false for 0 and NaN *)
  trips : num -> option N           (* iterations of
                                       for (b = 0; b < x; b++), None when the
                                       loop never exits *)
}.

Declare Scope num_scope.
Delimit Scope num_scope with num.
Notation "a + b" := (nadd a b) : num_scope.
Notation "a - b" := (nsub a b) : num_scope.
Notation "a * b" := (nmul a b) : num_scope.
Notation "a / b" := (ndiv a b) : num_scope.
Notation "- a" := (nopp a) : num_scope.
Notation "a <? b" := (nltb a b) : num_scope.
Notation "a <=? b" := (nleb a b) : num_scope.
Notation "a || b" := (if truthy a then a else b) : num_scope.
Notation "# z" := (of_Z z%Z) (at level 1, format "# z") : num_scope.

Section Builtins.
Context {num : Type} `{Number num}.
Local Open Scope num_scope.

(** A decimal literal [p/q], e.g. 0.15 = 15/100: the quotient of two small
    integers is rounded once, like the literal itself. *)
Definition lit (p q : Z) : num := #p / #q.

(** Math.round: the nearest integer, halves upwards; a negative argument
    that rounds to zero gives -0. *)
Definition Math_round (x : num) : num :=
  let f := nfloor x in
  if x - f <? lit 1 2 then f
  else if x <? #0 then - (- f - #1) else f + #1.

(** Math.ceil. *)
Definition Math_ceil (x : num) : num := - nfloor (- x).
End Builtins.

(* ------------------------------------------------------------------ *)
(** ** Instance: IEEE 754 binary64 *)

Module Binary64.
Local Open Scope float_scope.

Definition two52 : float := 0x1p52.
Definition two53 : float := 0x1p53.

Definition is_nan (x : float) : bool := negb (x =? x).

(** Math.floor; a zero keeps its sign. *)
Definition floor (x : float) : float :=
  if abs x <? two52 then
    if x =? 0 then x
    else
      let r := if 0 <=? x then (x + two52) - two52 else (x - two52) + two52 in
      if x <? r then r - 1 else r
  else x.

Definition of_Z (z : Z) : float :=
  match z with
  | Z0 => 0
  | Zpos p => of_uint63 (Uint63.of_Z (Zpos p))
  | Zneg p => - of_uint63 (Uint63.of_Z (Zpos p))
  end.

(** The integer value of a non-negative integral float. *)
Definition to_Z (x : float) : Z :=
  let (m, e) := frshiftexp x in
  Z.shiftl (Uint63.to_Z (normfr_mantissa m))
           (Uint63.to_Z e - FloatOps.shift - 53).

Definition max (a b : float) : float :=
  if is_nan a then a else if is_nan b then b else if a <? b then b else a.

Definition min (a b : float) : float :=
  if is_nan a then a else if is_nan b then b else if b <? a then b else a.

(** [b++] stops changing [b] at 2^53, so a larger bound is never reached. *)
Definition trips (x : float) : option N :=
  if 0 <? x then
    if x <=? two53 then Some (Z.to_N (to_Z (- floor (- x)))) else None
  else Some 0%N.

Definition truthy (x : float) : bool := negb (x =? 0) && negb (is_nan x).
End Binary64.

(** [Math_log] is the engine's Math.log. *)
Definition binary64 (Math_log : float -> float) : Number float := {|
  of_Z := Binary64.of_Z;
  nadd := PrimFloat.add;
  nsub := PrimFloat.sub;
  nmul := PrimFloat.mul;
  ndiv := PrimFloat.div;
  nopp := PrimFloat.opp;
  nsqrt := PrimFloat.sqrt;
  nlog := Math_log;
  nfloor := Binary64.floor;
  nmax := Binary64.max;
  nmin := Binary64.min;
  nltb := PrimFloat.ltb;
  nleb := PrimFloat.leb;
  truthy := Binary64.truthy;
  trips := Binary64.trips
|}.

(* ------------------------------------------------------------------ *)
(** ** Instance: exact real arithmetic

    The numbers of the specification's data model, not those the engine
    computes with: no rounding, no NaN, no overflow, and a division that
    is total. What is proved on this instance speaks of the formulas; it
    carries over to the engine only where that is said and shown on
    [binary64]. *)

Module Exact.
Local Open Scope R_scope.

Definition ltb (a b : R) : bool := if Rlt_dec a b then true else false.
Definition leb (a b : R) : bool := if Rle_dec a b then true else false.
Definition floor (x : R) : R := IZR (Int_part x).
Definition truthy (x : R) : bool := if Req_dec_T x 0 then false else true.
Definition trips (x : R) : option N := Some (Z.to_N (- Int_part (- x))).
End Exact.

#[export] Instance exact : Number R := {|
  of_Z := IZR;
  nadd := Rplus;
  nsub := Rminus;
  nmul := Rmult;
  ndiv := Rdiv;
  nopp := Ropp;
  nsqrt := R_sqrt.sqrt;
  nlog := ln;
  nfloor := Exact.floor;
  nmax := Rmax;
  nmin := Rmin;
  nltb := Exact.ltb;
  nleb := Exact.leb;
  truthy := Exact.truthy;
  trips := Exact.trips
|}.

(* ------------------------------------------------------------------ *)
(** ** Built-ins of the language and of simple-statistics

    simple-statistics is an external dependency of the repository; the
    three functions the engine calls are written out here as the package
    documents them (least-squares line, arithmetic mean that rejects an
    empty array). *)

(** String.prototype.includes. *)
Definition includes (s sub : string) : bool :=
  match String.index 0 sub s with Some _ => true | None => false end.

Section Library.
Context {num : Type} `{Number num}.
Local Open Scope num_scope.

(** Array.prototype.sort with a comparator: a stable sort that moves [a]
    behind [b] only when [compareFn a b] is positive (a NaN comparator
    result counts as 0). With a consistent comparator the result of a
    stable sort is determined, and this is it; with an inconsistent one (a
    NaN key among others) the language leaves the order to the
    implementation, and only what holds of every rearrangement is stated
    of such arrays below. *)
Fixpoint sort_insert {A} (compareFn : A -> A -> num) (a : A) (l : list A) : list A :=
  match l with
  | [] => [a]
  | b :: l' =>
      if #0 <? compareFn a b then b :: sort_insert compareFn a l'
      else a :: b :: l'
  end.

Definition Array_sort {A} (compareFn : A -> A -> num) (l : list A) : list A :=
  fold_right (sort_insert compareFn) [] l.

(** ss.sum: Kahan-Babuska compensated summation. *)
Definition nabs (x : num) : num := if x <? #0 then - x else x.

Definition ss_sum (x : list num) : num :=
  match x with
  | [] => #0
  | x0 :: rest =>
      let '(sum, correction) :=
        fold_left (fun '(sum, correction) xi =>
                     let transition := sum + xi in
                     if nabs xi <=? nabs sum
                     then (transition, correction + ((sum - transition) + xi))
                     else (transition, correction + ((xi - transition) + sum)))
                  rest (x0, #0) in
      sum + correction
  end.

(** ss.mean. *)
Definition ss_mean (x : list num) : Outcome num :=
  match x with
  | [] => Throws "mean requires at least one data point"
  | _ => Returns (ss_sum x / #(Z.of_nat (List.length x)))
  end.

(** ss.linearRegression: slope [m] and intercept [b] of the least-squares
    line through the points. *)
Record Line := { m : num; b : num }.

Definition ss_linearRegression (data : list (num * num)) : Line :=
  match data with
  | [(_, y)] => {| m := #0; b := y |}
  | _ =>
      let dataLength := #(Z.of_nat (List.length data)) in
      let '(sumX, sumY, sumXX, sumXY) :=
        fold_left (fun '(sumX, sumY, sumXX, sumXY) '(x, y) =>
                     (sumX + x, sumY + y, sumXX + x * x, sumXY + x * y))
                  data (#0, #0, #0, #0) in
      let m := (dataLength * sumXY - sumX * sumY)
               / (dataLength * sumXX - sumX * sumX) in
      {| m := m; b := sumY / dataLength - (m * sumX) / dataLength |}
  end.

(** ss.linearRegressionLine. *)
Definition ss_linearRegressionLine (mb : Line) : num -> num :=
  fun x => b mb + m mb * x.
End Library.

(* ------------------------------------------------------------------ *)
(** ** src/calculator.js: the classifier *)

Section Classifier.
Context {num : Type} `{Number num}.
Local Open Scope num_scope.
Local Open Scope js_scope.

Record Sample := { n : num; time : num }.

(** An entry of the [models] array. The five entries are distinct objects
    with distinct [complexity], which identifies them under [===]. *)
Record Model := { type : string; rmse : num; complexity : nat }.

(** An entry of the returned [results] array. *)
Record ModelFit := { fit_type : string; fit_rmse : num }.

Record Classification :=
  { bestFit : string; confidence : num; results : list ModelFit }.

(** [x ** 2] is written [x * x]; the two arrays always have one length. *)
Definition calculateRMSE (actual predicted : list num) : num :=
  let sumSquaredErrors :=
    fold_left (fun sum '(val, pred) => sum + (val - pred) * (val - pred))
              (combine actual predicted) #0 in
  nsqrt (sumSquaredErrors / #(Z.of_nat (List.length actual))).

Definition getRegressionRMSE (dataPoints : list Sample) (transformFn : num -> num) : num :=
  let data := map (fun d => (transformFn (n d), time d)) dataPoints in
  let model := ss_linearRegression data in
  let line := ss_linearRegressionLine model in
  let predictions := map (fun d => line (transformFn (n d))) dataPoints in
  calculateRMSE (map time dataPoints) predictions.

(** Lines 185-209: the five RMSE values. *)
Definition constantRMSE (dataPoints : list Sample) (meanTime : num) : num :=
  let nValues := map n dataPoints in
  let timeValues := map time dataPoints in
  let constantPredictions := map (fun _ => meanTime) nValues in
  calculateRMSE timeValues constantPredictions.

Definition linearRMSE (dataPoints : list Sample) : num :=
  getRegressionRMSE dataPoints (fun n => n).

Definition quadraticRMSE (dataPoints : list Sample) : num :=
  getRegressionRMSE dataPoints (fun n => n * n).

Definition logRMSE (dataPoints : list Sample) : num :=
  getRegressionRMSE dataPoints (fun n => nlog n).

Definition nLogNRMSE (dataPoints : list Sample) : num :=
  getRegressionRMSE dataPoints (fun n => n * nlog n).

(** Lines 211-217: the [models] array, in catalog order. *)
Definition modelTable (dataPoints : list Sample) (meanTime : num) : list Model :=
  [ {| type := "O(1) - Constant"; rmse := constantRMSE dataPoints meanTime; complexity := 1 |};
    {| type := "O(log n) - Logarithmic"; rmse := logRMSE dataPoints; complexity := 2 |};
    {| type := "O(n) - Linear"; rmse := linearRMSE dataPoints; complexity := 3 |};
    {| type := "O(n log n) - Linear-ithmic"; rmse := nLogNRMSE dataPoints; complexity := 4 |};
    {| type := "O(n^2) - Quadratic"; rmse := quadraticRMSE dataPoints; complexity := 5 |} ].

Definition byRmse (a b : Model) : num := rmse a - rmse b.
Definition byFitRmse (a b : ModelFit) : num := fit_rmse a - fit_rmse b.

(** Line 272: the entry of [results] made from a model. *)
Definition toFit (m : Model) : ModelFit := {| fit_type := type m; fit_rmse := rmse m |}.

(** One turn of the loop of lines 241-249. *)
Definition promote (bestModel candidate : Model) : Model :=
  if (complexity candidate <? complexity bestModel)%nat then
    let diff := (rmse candidate - rmse bestModel) / (rmse bestModel || lit 1 1000000000) in
    if diff <? lit 15 100 then candidate else bestModel
  else bestModel.

(** Lines 227-238: the choice for ultra-fast measurements. *)
Definition ultraFastChoice (models : list Model) : option Model :=
  let o1Model := find (fun m => includes (type m) "O(1)") models in
  let logModel := find (fun m => includes (type m) "O(log n)") models in
  match logModel, o1Model with
  | Some lm, Some om => if rmse lm <? rmse om then logModel else o1Model
  | _, _ => o1Model
  end.

(** Lines 252-254: how well the best model fits, relative to the signal. *)
Definition fitQuality (meanTime : num) (bestModel : Model) : num :=
  let signalMagnitude := if #0 <? meanTime then meanTime else #1 in
  let normalizedError := rmse bestModel / signalMagnitude in
  nmax #0 (#1 - normalizedError * #2).

(** Lines 256-266: the margin to the closest competitor. *)
Definition separation (models : list Model) (bestModel : Model) : num :=
  let sortedByFit := Array_sort byRmse models in
  let secondBest :=
    match nth_error sortedByFit 0 with
    | Some s => if (complexity s =? complexity bestModel)%nat
                then nth_error sortedByFit 1 else Some s
    | None => None
    end in
  match secondBest with
  | Some s => nmin #1 ((rmse s - rmse bestModel) / (rmse s || #1))
  | None => #0
  end.

(** Line 268: the confidence of the standard regime, before rounding. *)
Definition standardConfidence (meanTime : num) (models : list Model) (bestModel : Model) : num :=
  (fitQuality meanTime bestModel * lit 7 10 + separation models bestModel * lit 3 10) * #100.

(** Lines 219-284, given the mean time and the unsorted [models] array. *)
Definition selectBest (meanTime : num) (table : list Model) : Outcome Classification :=
  let models := Array_sort byRmse table in
  let isUltraFast := meanTime <? lit 1 10000 in
  '(bestModel, confidence) <-
    (if isUltraFast then
       match ultraFastChoice models with
       | Some bm => Returns (bm, #95)
       | None => Throws "TypeError: Cannot read properties of undefined"
       end
     else
       match models with
       | first :: rest =>
           let bestModel := fold_left promote rest first in
           Returns (bestModel, standardConfidence meanTime models bestModel)
       | [] => Throws "TypeError: Cannot read properties of undefined"
       end) ;;
  let results := map toFit models in
  let results := Array_sort byFitRmse results in
  Returns {| bestFit := type bestModel;
             confidence := Math_round confidence;
             results := results |}.

Definition determineComplexity (dataPoints : list Sample) : Outcome Classification :=
  let timeValues := map time dataPoints in
  meanTime <- ss_mean timeValues ;;
  selectBest meanTime (modelTable dataPoints meanTime).
End Classifier.

Arguments Sample num : clear implicits.
Arguments Model num : clear implicits.
Arguments ModelFit num : clear implicits.
Arguments Classification num : clear implicits.

(* ------------------------------------------------------------------ *)
(** ** src/calculator.js: the benchmarker

    The candidate function is opaque to the engine. Its two observable
    effects are kept: that it was invoked (a counter), and the time it took,
    which shows only through the readings of [performance.now()], here an
    arbitrary sequence [clock]. The candidate is taken to return, as the
    engine assumes. *)

Inductive InputMode := array | number.

Section Benchmarker.
Context {num : Type} `{Number num}.
Variable clock : N -> num.
Local Open Scope num_scope.
Local Open Scope js_scope.

(** What the engine passes to the candidate: the size itself, or
    generateInputArray(size). *)
Inductive Input := ArrayOfSize (size : num) | TheNumber (size : num).

(** [inputMode === 'number' ? size : generateInputArray(size)]: an array of
    2^32 elements or more cannot be built, Array.from throws. *)
Definition makeInput (inputMode : InputMode) (size : num) : Outcome Input :=
  match inputMode with
  | number => Returns (TheNumber size)
  | array =>
      if #4294967296 <=? size then Throws "RangeError: Invalid array length"
      else Returns (ArrayOfSize size)
  end.

Record World := { reads : N; calls : N }.

Definition performance_now (w : World) : num * World :=
  (clock (reads w), {| reads := N.succ (reads w); calls := calls w |}).

Definition algorithm (input : Input) (w : World) : World :=
  {| reads := reads w; calls := N.succ (calls w) |}.

(** The safety limit of the calibration loop and the turns it leaves. *)
Definition safetyLimit : N := 1000000.
Definition turnsLeft (calCount : N) : nat := N.to_nat (safetyLimit - calCount).

(** Lines 123-130: the calibration loop. *)
Equations? calibrate (input : Input) (calStart calEnd : num) (calCount : N) (w : World)
  : num * N * World by wf (turnsLeft calCount) lt :=
  calibrate input calStart calEnd calCount w
    with Sumbool.sumbool_of_bool ((calEnd - calStart <? #5) && (calCount <? safetyLimit)%N) := {
    | left _ =>
        let w1 := algorithm input w in
        let '(now, w2) := performance_now w1 in
        calibrate input calStart now (N.succ calCount) w2
    | right _ => (calEnd, calCount, w) }.
Proof.
  apply andb_prop in e. destruct e as [_ Hlt]. apply N.ltb_lt in Hlt.
  unfold turnsLeft. lia.
Qed.

(** Lines 133-138. *)
Definition chooseBatchSize (calCount : N) (calDuration : num) : num :=
  if (1 <? calCount)%N
  then Math_ceil ((#15 * #(Z.of_N calCount)) / (calDuration || lit 1 1000))
  else #1.

(** Lines 141-154: the measurement loop, [remaining] turns to go. *)
Fixpoint measure (remaining : nat) (inputMode : InputMode) (size batchSize : num)
         (times : list num) (w : World) : Outcome (list num * World) :=
  match remaining with
  | O => Returns (times, w)
  | S remaining' =>
      inputForAlgorithm <- makeInput inputMode size ;;
      let '(start, w) := performance_now w in
      match trips batchSize with
      | None => Diverges
      | Some count =>
          let w := N.iter count (algorithm inputForAlgorithm) w in
          let '(end_, w) := performance_now w in
          measure remaining' inputMode size batchSize
                  (times ++ [(end_ - start) / batchSize]) w
      end
  end.

(** Lines 117-138: the calibration on a given input, and the batch size it
    arrives at. *)
Definition batchSizeFor (calibrationInput : Input) (w : World) : num * World :=
  let '(calStart, w) := performance_now w in
  let '(calEnd, calCount, w) := calibrate calibrationInput calStart calStart 0 w in
  let calDuration := calEnd - calStart in
  (chooseBatchSize calCount calDuration, w).

(** Lines 112-159: the body of the loop over the sizes. *)
Definition measureSize (iterations : nat) (inputMode : InputMode) (size : num) (w : World)
  : Outcome (Sample num * World) :=
  calibrationInput <- makeInput inputMode size ;;
  let '(batchSize, w) := batchSizeFor calibrationInput w in
  '(times, w) <- measure iterations inputMode size batchSize [] w ;;
  avgTime <- ss_mean times ;;
  Returns ({| n := size; time := avgTime |}, w).

Fixpoint forEachSize (iterations : nat) (inputMode : InputMode) (sizes : list num)
         (dataPoints : list (Sample num)) (w : World) : Outcome (list (Sample num) * World) :=
  match sizes with
  | [] => Returns (dataPoints, w)
  | size :: sizes' =>
      '(point, w) <- measureSize iterations inputMode size w ;;
      forEachSize iterations inputMode sizes' (dataPoints ++ [point]) w
  end.

Definition runAnalysis (inputSizes : list num) (iterations : nat) (inputMode : InputMode)
           (w : World) : Outcome (list (Sample num) * World) :=
  w <- match inputSizes with
       | warmupSize :: _ =>
           warmupInput <- makeInput inputMode warmupSize ;;
           Returns (N.iter 100 (algorithm warmupInput) w)
       | [] => Returns w
       end ;;
  forEachSize iterations inputMode inputSizes [] w.

(** src/utils/analysisRunner.js. *)
Definition runSingleAnalysis (inputSizes : list num) (iterations : nat) (inputMode : InputMode)
           (w : World) : Outcome (Classification num * World) :=
  if (List.length inputSizes <? 2)%nat then
    Returns ({| bestFit := "N/A"; confidence := #0; results := [] |}, w)
  else
    '(dataPoints, w) <- runAnalysis inputSizes iterations inputMode w ;;
    complexity <- determineComplexity dataPoints ;;
    Returns (complexity, w).
End Benchmarker.

(* ------------------------------------------------------------------ *)
(** ** Definitions that follow the specification's wording *)

Section Specified.
Context {num : Type} `{Number num}.
Local Open Scope num_scope.

(** The numbers in [l] are ordinary numbers for the comparisons the sort
    relies on: [<=] is the negation of [>], [<] implies [<=], [<=] is
    transitive, and the sign of a difference tells the order. Real numbers
    always are; among doubles the check rules out NaN, with which the
    comparator of the sort is not consistent. *)
Definition comparable (l : list num) : bool :=
  forallb (fun a =>
    forallb (fun b =>
      Bool.eqb (#0 <? a - b) (b <? a)
      && Bool.eqb (a <=? b) (negb (b <? a))
      && implb (a <? b) (a <=? b)
      && forallb (fun c => implb ((a <=? b) && (b <=? c)) (a <=? c)) l) l) l.

(** Section 4.3, step 3 as worded: starting from the lowest-RMSE model, the
    models are visited in ascending rank order and a simpler candidate is
    promoted when [(candidate.rmse - best.rmse) / best.rmse < 0.15]. *)
Definition promoteAsSpecified (best candidate : Model num) : Model num :=
  if (complexity candidate <? complexity best)%nat then
    if (rmse candidate - rmse best) / rmse best <? lit 15 100 then candidate else best
  else best.

Definition occamByRank (table : list (Model num)) : option (Model num) :=
  match Array_sort byRmse table with
  | provisional :: _ => Some (fold_left promoteAsSpecified table provisional)
  | [] => None
  end.

(** Section 7, InvalidMeasurement: a time is acceptable when it is finite
    and not negative. *)
Definition isFinite (x : num) : bool := x - x <=? x - x.
Definition validTime (x : num) : bool := isFinite x && (#0 <=? x).

Definition degenerate : Classification num :=
  {| bestFit := "N/A"; confidence := #0; results := [] |}.

(** The two readings of "rejected before regression": the offending samples
    are dropped (with the InsufficientData result when fewer than two samples
    remain), or their times are clamped to zero. *)
Definition classifyDropping (samples : list (Sample num)) : Outcome (Classification num) :=
  let valid := filter (fun d => validTime (time d)) samples in
  if (List.length valid <? 2)%nat then Returns degenerate
  else determineComplexity valid.

Definition classifyClamping (samples : list (Sample num)) : Outcome (Classification num) :=
  determineComplexity
    (map (fun d => if validTime (time d) then d else {| n := n d; time := #0 |}) samples).

(** Section 4.2, step 2 as worded:
    [batchSize = ceil(15 * calCount / calDuration)], with a floor of 1. *)
Definition batchSizeAsSpecified (calCount : N) (calDuration : num) : num :=
  nmax #1 (Math_ceil ((#15 * #(Z.of_N calCount)) / calDuration)).

(** The amended wording of step 3: the candidates are taken in the order
    given (ascending RMSE in the engine), and the test divides by 1e-9 when
    the best RMSE is zero. *)
Definition simpler (candidate best : Model num) : Prop :=
  (complexity candidate < complexity best)%nat.

Definition closeEnough (candidate best : Model num) : Prop :=
  ((rmse candidate - rmse best) / (if truthy (rmse best) then rmse best else lit 1 1000000000)
     <? lit 15 100) = true.

Inductive Scan : Model num -> list (Model num) -> Model num -> Prop :=
| Scan_done best : Scan best [] best
| Scan_promote best candidate rest final :
    simpler candidate best -> closeEnough candidate best ->
    Scan candidate rest final -> Scan best (candidate :: rest) final
| Scan_keep best candidate rest final :
    ~ (simpler candidate best /\ closeEnough candidate best) ->
    Scan best rest final -> Scan best (candidate :: rest) final.

(** [a] stays ahead of [b] in a sorted array: its key is not larger, and on
    equal keys it has the lower rank. *)
Definition ahead {A} (key : A -> num) (rank : A -> nat) (a b : A) : Prop :=
  (key a <=? key b) = true /\ ((key b <=? key a) = true -> (rank a <= rank b)%nat).

(** The sizes for which the input can be built: any in number mode, those
    below 2^32 in array mode. *)
Definition buildable (inputMode : InputMode) (size : num) : Prop :=
  inputMode = array -> (#4294967296 <=? size) = false.


(** The times an iteration of the measurement loop pushes, when the loop is
    entered with [first] readings of the clock taken: the interval between
    readings 2j and 2j+1, divided by the batch size. *)
Definition batchTimings (clock : N -> num) (first : N) (iterations : nat) (batchSize : num)
  : list num :=
  map (fun j => (clock (first + 2 * N.of_nat j + 1)%N - clock (first + 2 * N.of_nat j)%N)
                / batchSize)
      (seq 0 iterations).

(** The value of [calEnd] after [k] turns of the calibration loop, entered
    with [calEnd] when [firstRead] readings of the clock had been taken. *)
Definition readingFrom (clock : N -> num) (calEnd : num) (firstRead k : N) : num :=
  match k with 0%N => calEnd | _ => clock (firstRead + N.pred k)%N end.
End Specified.

(* ------------------------------------------------------------------ *)
(** ** Examples run on doubles *)

Module Examples.
Local Open Scope float_scope.

(** Math.log at the sizes the examples use: the doubles nearest to the
    natural logarithms of 1..10. *)
Definition Math_log (x : float) : float :=
  if x =? 1 then 0 else
  if x =? 2 then 0x1.62e42fefa39efp-1 else
  if x =? 3 then 0x1.193ea7aad030bp+0 else
  if x =? 4 then 0x1.62e42fefa39efp+0 else
  if x =? 5 then 0x1.9c041f7ed8d33p+0 else
  if x =? 6 then 0x1.cab0bfa2a2002p+0 else
  if x =? 7 then 0x1.f2272ae325a57p+0 else
  if x =? 8 then 0x1.0a2b23f3bab73p+1 else
  if x =? 9 then 0x1.193ea7aad030bp+1 else
  if x =? 10 then 0x1.26bb1bbb55516p+1 else nan.

#[export] Instance doubles : Number float := binary64 Math_log.

Definition point (size t : float) : Sample float := {| n := size; time := t |}.

(** A single measurement. *)
Definition single : list (Sample float) := [point 10 5].

(** Four noisy measurements (mean time 3). *)
Definition noisy : list (Sample float) := [point 4 1; point 5 3; point 6 1; point 8 7].

(** Two measurements at timer resolution (mean time 2^-19). *)
Definition tiny : list (Sample float) := [point 1 0x1p-20; point 2 0x1.8p-19].

(** Three measurements on a line, the first with a negative time. *)
Definition withNegative : list (Sample float) := [point 1 (-6); point 2 3; point 3 12].


(** A clock that advances by 5 between two readings. *)
Definition steadyClock (k : N) : float := 5 * Binary64.of_Z (Z.of_N k).


(** A clock that reads 0, 1, 2, 3, 6.666666666666666 and then advances by
    1 between two readings. *)
Definition unevenClock (k : N) : float :=
  if (k <? 4)%N then Binary64.of_Z (Z.of_N k)
  else 0x1.aaaaaaaaaaaaap+2 + Binary64.of_Z (Z.of_N k - 4).

Definition freshWorld : World := {| reads := 0; calls := 0 |}.
End Examples.

(* ------------------------------------------------------------------ *)
(** ** src/calculator.js and src/test_algorithms.js: arrays of integers

    The arrays the engine builds hold the integers 0..n-1, which doubles
    represent exactly; they are lists of [Z] here. *)

(** generateInputArray: Array.from({ length: n }, (_, i) => i). An array
    cannot have 2^32 elements or more. *)
Definition generateInputArray (n : Z) : Outcome (list Z) :=
  if (2 ^ 32 <=? n)%Z then Throws "RangeError: Invalid array length"
  else Returns (map Z.of_nat (seq 0 (Z.to_nat n))).

(** [arr[i]]: [None] stands for undefined (index out of range). *)
Definition element (arr : list Z) (i : Z) : option Z :=
  if (i <? 0)%Z then None else nth_error arr (Z.to_nat i).

(** linearTime: [sum += arr[i]] over the indices. The partial sums are taken
    to be safe integers, on which the addition of doubles is exact. *)
Definition linearTime (arr : list Z) : Z := fold_left Z.add arr 0%Z.

(** The while loop of logarithmicTime, with [fuel] turns allowed; [None]
    when they do not suffice. A comparison with undefined is false. *)
Fixpoint searchLoop (fuel : nat) (arr : list Z) (target low high : Z) : option Z :=
  if (low <=? high)%Z then
    match fuel with
    | O => None
    | S fuel' =>
        let mid := ((low + high) / 2)%Z in
        match element arr mid with
        | Some x =>
            if (x =? target)%Z then Some mid
            else if (x <? target)%Z then searchLoop fuel' arr target (mid + 1) high
            else searchLoop fuel' arr target low (mid - 1)
        | None => searchLoop fuel' arr target low (mid - 1)
        end
    end
  else Some (-1)%Z.

(** logarithmicTime: binary search, one turn per element allowed. *)
Definition logarithmicTime (arr : list Z) (target : Z) : option Z :=
  searchLoop (List.length arr) arr target 0 (Z.of_nat (List.length arr) - 1).

(** [count++] on a double: 2^53 + 1 rounds back to 2^53. *)
Definition increment (count : Z) : Z :=
  if (count =? 2 ^ 53)%Z then count else (count + 1)%Z.

(** quadraticTime: the two nested loops over the indices. *)
Definition quadraticTime (arr : list Z) : Z :=
  Nat.iter (List.length arr) (fun count => Nat.iter (List.length arr) increment count) 0%Z.


(* ------------------------------------------------------------------ *)
(** ** Size plans: src/index.js (command line) and web-frontend/src/App.js

    The sizes are integers read with parseInt. On the safe integers the
    arithmetic of doubles is that of integers, and the plans are lists of
    [Z] here; an array holds fewer than 2^32 elements. *)

(** Number.isSafeInteger. *)
Definition safeInteger (z : Z) : Prop := (- 2 ^ 53 < z < 2 ^ 53)%Z.

(** index.js, "Powers of 10": for (i = 1; i <= maxPower; i++) push(10 ** i). *)
Definition cliPowersOf10 (maxPower : Z) : list Z :=
  map (fun i => (10 ^ Z.of_nat i)%Z) (seq 1 (Z.to_nat maxPower)).

(** index.js, "Doubling": [steps] turns of push(current); current *= 2. *)
Fixpoint doublingLoop (turns : nat) (current : Z) : list Z :=
  match turns with
  | O => []
  | S turns' => current :: doublingLoop turns' (current * 2)%Z
  end.

Definition cliDoubling (startSize steps : Z) : list Z :=
  doublingLoop (Z.to_nat steps) startSize.

(** index.js, "Linear Steps": for (i = 0; i < count; i++) push(startSize + i * stepSize). *)
Definition cliLinearSteps (startSize stepSize count : Z) : list Z :=
  map (fun i => (startSize + Z.of_nat i * stepSize)%Z) (seq 0 (Z.to_nat count)).



(** App.js: for (let i = linearStart; i <= linearEnd; i += linearStep) push(i),
    with [fuel] turns allowed; [None] when the loop is still running after
    them. *)
Fixpoint appLinearLoop (fuel : nat) (i linearEnd linearStep : Z) (inputSizes : list Z)
  : option (list Z) :=
  if (i <=? linearEnd)%Z then
    match fuel with
    | O => None
    | S fuel' => appLinearLoop fuel' (i + linearStep)%Z linearEnd linearStep (inputSizes ++ [i])
    end
  else Some inputSizes.

Definition appLinear (fuel : nat) (linearStart linearEnd linearStep : Z) : option (list Z) :=
  appLinearLoop fuel linearStart linearEnd linearStep [].


(* ------------------------------------------------------------------ *)
(** ** verifyAlg.js and src/index.js: what is shown of a classification *)

(** The [type] labels of the five models of calculator.js. *)
Definition catalogLabels : list string :=
  ["O(1) - Constant"; "O(log n) - Logarithmic"; "O(n) - Linear";
   "O(n log n) - Linear-ithmic"; "O(n^2) - Quadratic"]%string.

(** [s.split(' ')[0]]: the text before the first space. *)
Fixpoint firstWord (s : string) : string :=
  match s with
  | EmptyString => EmptyString
  | String ch rest =>
      if Ascii.eqb ch Ascii.Space then EmptyString else String ch (firstWord rest)
  end.

Section Display.
Context {num : Type} `{Number num}.
Local Open Scope num_scope.

(** Number-to-string conversion of the language, as used by a template. *)
Variable numberToString : num -> string.

(** verifyAlg.js, formatResult. *)
Definition formatResult (complexity : Classification num) : string :=
  let resultString := firstWord (bestFit complexity) in
  if confidence complexity <=? #75
  then (resultString ++ " (Conf: " ++ numberToString (confidence complexity) ++ "%)")%string
  else resultString.
End Display.

(** src/index.js, runAndDisplayAnalysis: ten iterations per size, and no
    test on the number of sizes. What it prints is left out; a failure to
    draw the graph is caught. *)
Definition runAndDisplayAnalysis {num : Type} `{Number num} (clock : N -> num)
           (inputSizes : list num) (inputMode : InputMode) (w : World)
  : Outcome (Classification num * World) :=
  bind (runAnalysis clock inputSizes 10 inputMode w) (fun '(dataPoints, w) =>
  bind (determineComplexity dataPoints) (fun complexity =>
  Returns (complexity, w))).

(** src/index.js, main: the two tests made on a low-confidence best fit. *)
Definition isFastIsh (bestFit : string) : bool :=
  includes bestFit "O(1)" || includes bestFit "O(log n)"
  || includes bestFit "O(n)" || includes bestFit "O(n log n)".

Definition isSlow (bestFit : string) : bool := includes bestFit "O(n^2)".

(* ------------------------------------------------------------------ *)
(** ** web-frontend/src/App.js: the reducer

    The state object is read by key; a key that was never set reads as
    undefined. Of the payload of a successful analysis the reducer looks at
    the confidence only. *)

Inductive Value :=
| VUndefined
| VNull
| VNaN
| VBool (b : bool)
| VNumber (z : Z)
| VString (s : string)
| VResult (payloadConfidence : Z).

Definition State := string -> Value.

(** [{ ...state, [key]: value }]. *)
Definition withKey (key : string) (value : Value) (state : State) : State :=
  fun k => if String.eqb k key then value else state k.

Inductive Action :=
| SET_FIELD (field : string) (value : Value)
| START_ANALYSIS
| ANALYSIS_SUCCESS (payloadConfidence : Z)
| ANALYSIS_ERROR (payload : Value)
| UnknownAction.

Definition functionTemplate : string :=
  "/**
* Paste your algorithm here.
* Function name MUST be 'functionToTest'.
*/
function functionToTest(input) {
  // Your code here
}".

Definition initialState : State :=
  fun k =>
    if String.eqb k "code" then VString functionTemplate
    else if String.eqb k "algoName" then VString EmptyString
    else if String.eqb k "inputMode" then VString "array"
    else if String.eqb k "growthStrategy" then VString "powersOf10"
    else if String.eqb k "useSuperRange" then VBool false
    else if String.eqb k "powersOf10Count" then VNumber 4
    else if String.eqb k "doublingStart" then VNumber 1
    else if String.eqb k "doublingCount" then VNumber 10
    else if String.eqb k "linearStart" then VNumber 100
    else if String.eqb k "linearEnd" then VNumber 1000
    else if String.eqb k "linearStep" then VNumber 100
    else if String.eqb k "result" then VNull
    else if String.eqb k "error" then VNull
    else if String.eqb k "isLoading" then VBool false
    else if String.eqb k "isBigOVisible" then VBool false
    else VUndefined.

Definition reducer (state : State) (action : Action) : State :=
  match action with
  | SET_FIELD field value => withKey field value state
  | START_ANALYSIS =>
      withKey "result" VNull (withKey "error" VNull (withKey "isLoading" (VBool true) state))
  | ANALYSIS_SUCCESS payloadConfidence =>
      withKey "isBigOVisible" (VBool (75 <=? payloadConfidence)%Z)
        (withKey "result" (VResult payloadConfidence)
           (withKey "isLoading" (VBool false) state))
  | ANALYSIS_ERROR payload =>
      withKey "error" payload (withKey "isLoading" (VBool false) state)
  | UnknownAction => state
  end.

(** The fields the page sets through setField. *)
Definition formFields : list string :=
  ["algoName"; "code"; "inputMode"; "growthStrategy"; "powersOf10Count";
   "doublingStart"; "doublingCount"; "linearStart"; "linearEnd"; "linearStep";
   "useSuperRange"; "isBigOVisible"]%string.

Definition fromThePage (action : Action) : Prop :=
  match action with
  | SET_FIELD field _ => In field formFields
  | _ => True
  end.

(** A state that is loading holds no result and no error. *)
Definition idleOrClean (state : State) : Prop :=
  state "isLoading"%string = VBool true ->
  state "result"%string = VNull /\ state "error"%string = VNull.


(* ------------------------------------------------------------------ *)
(** ** The earlier calculator.js (R-squared based) *)

Module Legacy.
Section LegacyEngine.
Context {num : Type} `{Number num}.
Variable clock : N -> num.
Local Open Scope num_scope.
Local Open Scope js_scope.

(** The loop over the iterations: one timed call per turn, on a fresh
    array. *)
Fixpoint measure (remaining : nat) (size : num) (times : list num) (w : World)
  : Outcome (list num * World) :=
  match remaining with
  | O => Returns (times, w)
  | S remaining' =>
      arr <- makeInput array size ;;
      let '(start, w) := performance_now clock w in
      let w := algorithm arr w in
      let '(end_, w) := performance_now clock w in
      measure remaining' size (times ++ [end_ - start]) w
  end.

Fixpoint forEachSize (iterations : nat) (sizes : list num)
         (dataPoints : list (Sample num)) (w : World) : Outcome (list (Sample num) * World) :=
  match sizes with
  | [] => Returns (dataPoints, w)
  | size :: sizes' =>
      '(times, w) <- measure iterations size [] w ;;
      avgTime <- ss_mean times ;;
      forEachSize iterations sizes' (dataPoints ++ [{| n := size; time := avgTime |}]) w
  end.

(** runAnalysis: five warmup calls, then the sizes. *)
Definition runAnalysis (inputSizes : list num) (iterations : nat) (w : World)
  : Outcome (list (Sample num) * World) :=
  w <- match inputSizes with
       | warmupSize :: _ =>
           warmupArray <- makeInput array warmupSize ;;
           Returns (N.iter 5 (algorithm warmupArray) w)
       | [] => Returns w
       end ;;
  forEachSize iterations inputSizes [] w.

(** The intervals the loop times when it is entered with [first] readings of
    the clock taken: reading 2j+1 minus reading 2j, for each turn j. *)
Definition timings (first : N) (iterations : nat) : list num :=
  map (fun j => clock (first + 2 * N.of_nat j + 1) - clock (first + 2 * N.of_nat j))
      (seq 0 iterations).

(** ss.rSquared of simple-statistics: 1 for fewer than two points, otherwise
    one minus the residual sum of squares over the total sum of squares
    (squares written as products, as for [**] above). *)
Definition ss_rSquared (x : list (num * num)) (func : num -> num) : num :=
  if (List.length x <? 2)%nat then #1
  else
    let sum := fold_left (fun sum p => sum + snd p) x #0 in
    let average := sum / #(Z.of_nat (List.length x)) in
    let sumOfSquares :=
      fold_left (fun acc p => acc + (average - snd p) * (average - snd p)) x #0 in
    let err :=
      fold_left (fun acc p => acc + (snd p - func (fst p)) * (snd p - func (fst p))) x #0 in
    #1 - err / sumOfSquares.

Record Scored := { type : string; r2 : num }.

Record Verdict := { bestFit : string; results : list Scored }.

Definition regressionR2 (dataPoints : list (Sample num)) (transformFn : num -> num) : num :=
  let data := map (fun d => (transformFn (n d), time d)) dataPoints in
  let model := ss_linearRegression data in
  let line := ss_linearRegressionLine model in
  ss_rSquared data line.

(** The [models] array, in the order of the source. *)
Definition modelTable (dataPoints : list (Sample num)) : list Scored :=
  [ {| type := "O(n) - Linear"; r2 := regressionR2 dataPoints (fun n => n) |};
    {| type := "O(n^2) - Quadratic"; r2 := regressionR2 dataPoints (fun n => n * n) |};
    {| type := "O(log n) - Logarithmic"; r2 := regressionR2 dataPoints (fun n => nlog n) |};
    {| type := "O(n log n) - Linear-ithmic";
       r2 := regressionR2 dataPoints (fun n => n * nlog n) |} ].

Definition byR2Descending (a b : Scored) : num := r2 b - r2 a.

(** One of the two Occam checks: move to the [simple] model when the best
    one is another and its R-squared is less than 0.01 ahead. *)
Definition prefer (label : string) (models : list Scored) (bestModel : option Scored)
  : option Scored :=
  match find (fun m => String.eqb (type m) label) models, bestModel with
  | Some simple, Some best =>
      if negb (String.eqb (type best) label)
      then if r2 best - r2 simple <? lit 1 100 then Some simple else bestModel
      else bestModel
  | _, _ => bestModel
  end.

Definition selectFit (table : list Scored) : Outcome Verdict :=
  let models := Array_sort byR2Descending table in
  let bestModel := nth_error models 0 in
  let bestModel := prefer "O(n) - Linear" models bestModel in
  let bestModel := prefer "O(log n) - Logarithmic" models bestModel in
  match bestModel with
  | Some best => Returns {| bestFit := type best; results := models |}
  | None => Throws "TypeError: Cannot read properties of undefined"
  end.

Definition determineComplexity (dataPoints : list (Sample num)) : Outcome Verdict :=
  selectFit (modelTable dataPoints).
End LegacyEngine.

Arguments Scored num : clear implicits.
Arguments Verdict num : clear implicits.
End Legacy.

(* ------------------------------------------------------------------ *)
(** ** Facts about Array.prototype.sort *)

Section SortFacts.
Context {num : Type} `{Number num}.
Local Open Scope num_scope.

Variables (A : Type) (key : A -> num) (rank : A -> nat).
Variable compareFn : A -> A -> num.
Hypothesis compareFn_key : forall a b, compareFn a b = key a - key b.

Lemma sort_insert_perm (a : A) (l : list A) :
  Permutation (a :: l) (sort_insert compareFn a l).
Proof.
  induction l as [|b l IH]; simpl.
  - apply Permutation_refl.
  - destruct (#0 <? compareFn a b).
    + eapply perm_trans; [apply perm_swap|]. now apply perm_skip.
    + apply Permutation_refl.
Qed.

Lemma Array_sort_perm (l : list A) : Permutation l (Array_sort compareFn l).
Proof.
  induction l as [|a l IH]; simpl.
  - apply perm_nil.
  - eapply perm_trans; [apply perm_skip, IH|]. apply sort_insert_perm.
Qed.

Lemma Array_sort_length (l : list A) :
  List.length (Array_sort compareFn l) = List.length l.
Proof. symmetry. apply Permutation_length, Array_sort_perm. Qed.

(** What [comparable] gives for two members of the list. *)
Lemma comparable_pair (keys : list num) (x y : num) :
  comparable keys = true -> In x keys -> In y keys ->
  (#0 <? x - y) = (y <? x)
  /\ (x <=? y) = negb (y <? x)
  /\ ((x <? y) = true -> (x <=? y) = true)
  /\ (forall z, In z keys -> (x <=? y) = true -> (y <=? z) = true -> (x <=? z) = true).
Proof.
  unfold comparable. intros Hc Hx Hy.
  rewrite forallb_forall in Hc. specialize (Hc x Hx).
  rewrite forallb_forall in Hc. specialize (Hc y Hy).
  repeat (apply andb_prop in Hc; destruct Hc as [Hc ?]).
  repeat split.
  - now apply eqb_prop.
  - now apply eqb_prop.
  - intros Hlt. destruct (x <? y); [assumption | discriminate].
  - intros z Hz Hxy Hyz.
    match goal with Hall : forallb _ keys = true |- _ =>
      rewrite forallb_forall in Hall; specialize (Hall z Hz) end.
    rewrite Hxy, Hyz in *. assumption.
Qed.

Lemma sort_insert_sorted (keys : list num) (a : A) (l : list A) :
  comparable keys = true ->
  In (key a) keys -> (forall x, In x l -> In (key x) keys) ->
  Forall (fun x => (rank a <= rank x)%nat) l ->
  StronglySorted (ahead key rank) l ->
  StronglySorted (ahead key rank) (sort_insert compareFn a l).
Proof.
  intros Hc Ha. induction l as [|b l IH]; intros Hin Hrank Hs; simpl.
  - constructor; constructor.
  - assert (Hb : In (key b) keys) by (apply Hin; now left).
    destruct (@comparable_pair keys _ _ Hc Ha Hb) as (Hsign & Hle & _ & Htrans).
    destruct (@comparable_pair keys _ _ Hc Hb Ha) as (_ & Hle' & Hlt' & _).
    inversion Hs as [|? ? Hs' Hall]; subst.
    inversion Hrank as [|? ? Hrb Hrl]; subst.
    rewrite compareFn_key, Hsign.
    destruct (key b <? key a) eqn:Hba.
    + constructor.
      * apply IH; auto. intros x Hx. apply Hin. now right.
      * eapply Permutation_Forall; [apply sort_insert_perm|].
        constructor; [|assumption].
        split; [now apply Hlt'|].
        rewrite Hle. discriminate.
    + constructor; [assumption|].
      constructor.
      * split; [now rewrite Hle | intros _; assumption].
      * rewrite Forall_forall in *. intros x Hx. split.
        -- apply (Htrans (key x)).
           ++ apply Hin. now right.
           ++ now rewrite Hle.
           ++ apply (Hall x Hx).
        -- intros _. now apply Hrl.
Qed.

Lemma Array_sort_sorted (keys : list num) (l : list A) :
  comparable keys = true ->
  (forall x, In x l -> In (key x) keys) ->
  StronglySorted (fun a b => (rank a <= rank b)%nat) l ->
  StronglySorted (ahead key rank) (Array_sort compareFn l).
Proof.
  intros Hc. induction l as [|a l IH]; intros Hin Hs; simpl.
  - constructor.
  - inversion Hs as [|? ? Hs' Hall]; subst.
    apply sort_insert_sorted with (keys := keys); auto.
    + apply Hin. now left.
    + intros x Hx. apply Hin. right.
      eapply Permutation_in; [apply Permutation_sym, Array_sort_perm | exact Hx].
    + eapply Permutation_Forall; [apply Array_sort_perm | exact Hall].
    + apply IH; auto. intros x Hx. apply Hin. now right.
Qed.
End SortFacts.

(* ------------------------------------------------------------------ *)
(** ** Facts about the classifier *)

Lemma filter_permutation {A} (p : A -> bool) (l l' : list A) :
  Permutation l l' -> Permutation (filter p l) (filter p l').
Proof.
  induction 1 as [|x l l' _ IH|x y l|l l' l'' _ IH1 _ IH2]; simpl.
  - constructor.
  - destruct (p x); [now constructor | assumption].
  - destruct (p x), (p y); try apply Permutation_refl. apply perm_swap.
  - eapply perm_trans; eassumption.
Qed.

Lemma find_head_filter {A} (p : A -> bool) (l : list A) :
  find p l = hd_error (filter p l).
Proof.
  induction l as [|a l IH]; simpl; [reflexivity|].
  destruct (p a); [reflexivity | exact IH].
Qed.

(** [find] on a rearranged array whose single hit is [x]. *)
Lemma find_single {A} (p : A -> bool) (l l' : list A) (x : A) :
  Permutation l l' -> filter p l = [x] -> find p l' = Some x.
Proof.
  intros Hp Hf. rewrite find_head_filter.
  apply (filter_permutation p) in Hp. rewrite Hf in Hp.
  apply Permutation_length_1_inv in Hp. now rewrite Hp.
Qed.

Lemma StronglySorted_weaken {A} (R S : A -> A -> Prop) (l : list A) :
  (forall a b, R a b -> S a b) -> StronglySorted R l -> StronglySorted S l.
Proof.
  intros HRS. induction 1 as [|a l _ IH Hall]; constructor; [assumption|].
  eapply Forall_impl; [|exact Hall]. intros b. apply HRS.
Qed.

Section ClassifierFacts.
Context {num : Type} `{Number num}.
Local Open Scope num_scope.

Lemma byRmse_key (a b : Model num) : byRmse a b = rmse a - rmse b.
Proof. reflexivity. Qed.

Lemma byFitRmse_key (a b : ModelFit num) : byFitRmse a b = fit_rmse a - fit_rmse b.
Proof. reflexivity. Qed.

Lemma ss_mean_returns (x : list num) (meanTime : num) :
  ss_mean x = Returns meanTime -> x <> [].
Proof. destruct x; [discriminate | discriminate]. Qed.

Lemma ss_mean_nonempty (x : list num) :
  x <> [] -> ss_mean x = Returns (ss_sum x / #(Z.of_nat (List.length x))).
Proof. destruct x; [congruence | reflexivity]. Qed.

(** The sorted [models] array is never empty. *)
Lemma sorted_table_cons (dataPoints : list (Sample num)) (meanTime : num) :
  exists first rest, Array_sort byRmse (modelTable dataPoints meanTime) = first :: rest.
Proof.
  destruct (Array_sort byRmse (modelTable dataPoints meanTime)) as [|first rest] eqn:E.
  - apply (f_equal (@List.length _)) in E.
    rewrite Array_sort_length in E. discriminate.
  - eauto.
Qed.

(** The two [find] calls of the ultra-fast branch hit the constant and the
    logarithmic entry, wherever the sort has put them. *)
Lemma ultraFastChoice_sorted (dataPoints : list (Sample num)) (meanTime : num) :
  ultraFastChoice (Array_sort byRmse (modelTable dataPoints meanTime))
  = Some (if logRMSE dataPoints <? constantRMSE dataPoints meanTime
          then {| type := "O(log n) - Logarithmic"; rmse := logRMSE dataPoints; complexity := 2 |}
          else {| type := "O(1) - Constant"; rmse := constantRMSE dataPoints meanTime;
                  complexity := 1 |}).
Proof.
  unfold ultraFastChoice.
  rewrite (@find_single _ (fun m => includes (type m) "O(1)")
             (modelTable dataPoints meanTime) _
             {| type := "O(1) - Constant"; rmse := constantRMSE dataPoints meanTime;
                complexity := 1 |});
    [| apply Array_sort_perm | reflexivity].
  rewrite (@find_single _ (fun m => includes (type m) "O(log n)")
             (modelTable dataPoints meanTime) _
             {| type := "O(log n) - Logarithmic"; rmse := logRMSE dataPoints;
                complexity := 2 |});
    [| apply Array_sort_perm | reflexivity].
  simpl. destruct (logRMSE dataPoints <? constantRMSE dataPoints meanTime); reflexivity.
Qed.

(** The loop of lines 241-249 never moves to a more complex model and
    always holds a model of the array. *)
Lemma promote_cases (bestModel candidate : Model num) :
  promote bestModel candidate = bestModel
  \/ (promote bestModel candidate = candidate
      /\ (complexity candidate < complexity bestModel)%nat).
Proof.
  unfold promote. destruct (complexity candidate <? complexity bestModel)%nat eqn:E.
  - apply Nat.ltb_lt in E.
    match goal with |- context [if ?c then candidate else bestModel] => destruct c end; auto.
  - now left.
Qed.

Lemma scan_complexity (rest : list (Model num)) (first : Model num) :
  (complexity (fold_left promote rest first) <= complexity first)%nat.
Proof.
  revert first. induction rest as [|c rest IH]; intros first; simpl; [lia|].
  destruct (promote_cases first c) as [-> | [-> Hlt]].
  - apply IH.
  - specialize (IH c). lia.
Qed.

Lemma scan_member (rest : list (Model num)) (first : Model num) :
  In (fold_left promote rest first) (first :: rest).
Proof.
  revert first. induction rest as [|c rest IH]; intros first; simpl; [now left|].
  destruct (promote_cases first c) as [-> | [-> _]].
  - destruct (IH first) as [E | Hin]; [now left | now right; right].
  - right. apply IH.
Qed.

(** The loop is the scan of the amended wording, and nothing else is. *)
Lemma promote_yes (best candidate : Model num) :
  simpler candidate best -> closeEnough candidate best -> promote best candidate = candidate.
Proof.
  unfold simpler, closeEnough, promote. intros Hs Hc.
  apply Nat.ltb_lt in Hs. now rewrite Hs, Hc.
Qed.

Lemma promote_no (best candidate : Model num) :
  ~ (simpler candidate best /\ closeEnough candidate best) -> promote best candidate = best.
Proof.
  unfold simpler, closeEnough, promote. intros Hn.
  destruct (complexity candidate <? complexity best)%nat eqn:Ec; [|reflexivity].
  destruct ((rmse candidate - rmse best) / (rmse best || lit 1 1000000000) <? lit 15 100) eqn:Ed;
    [|reflexivity].
  exfalso. apply Hn. split; [now apply Nat.ltb_lt | reflexivity].
Qed.

Lemma scan_is_loop (rest : list (Model num)) (first : Model num) :
  Scan first rest (fold_left promote rest first).
Proof.
  revert first. induction rest as [|c rest IH]; intros first; simpl; [constructor|].
  destruct (Nat.ltb_spec (complexity c) (complexity first)) as [Hs | Hs].
  - destruct ((rmse c - rmse first) / (rmse first || lit 1 1000000000) <? lit 15 100) eqn:Ed.
    + rewrite promote_yes by assumption. apply Scan_promote; auto.
    + assert (Hn : ~ (simpler c first /\ closeEnough c first)).
      { intros [_ Hc]. unfold closeEnough in Hc. congruence. }
      rewrite promote_no by assumption. apply Scan_keep; auto.
  - assert (Hn : ~ (simpler c first /\ closeEnough c first)).
    { intros [Hlt _]. unfold simpler in Hlt. lia. }
    rewrite promote_no by assumption. apply Scan_keep; auto.
Qed.

Lemma scan_unique (rest : list (Model num)) (first final : Model num) :
  Scan first rest final -> final = fold_left promote rest first.
Proof.
  induction 1 as [best | best c rest final Hs Hc _ IH | best c rest final Hn _ IH]; simpl.
  - reflexivity.
  - now rewrite promote_yes.
  - now rewrite promote_no.
Qed.

(** What [selectBest] returns in each regime. *)
Lemma selectBest_ultraFast (dataPoints : list (Sample num)) (meanTime : num) :
  (meanTime <? lit 1 10000) = true ->
  selectBest meanTime (modelTable dataPoints meanTime)
  = Returns
      {| bestFit := if logRMSE dataPoints <? constantRMSE dataPoints meanTime
                    then "O(log n) - Logarithmic" else "O(1) - Constant";
         confidence := Math_round #95;
         results := Array_sort byFitRmse
                      (map toFit (Array_sort byRmse (modelTable dataPoints meanTime))) |}.
Proof.
  intros Hfast. unfold selectBest. rewrite Hfast, ultraFastChoice_sorted. simpl.
  destruct (logRMSE dataPoints <? constantRMSE dataPoints meanTime); reflexivity.
Qed.

Lemma selectBest_standard (dataPoints : list (Sample num)) (meanTime : num)
      (first : Model num) (rest : list (Model num)) :
  (meanTime <? lit 1 10000) = false ->
  Array_sort byRmse (modelTable dataPoints meanTime) = first :: rest ->
  selectBest meanTime (modelTable dataPoints meanTime)
  = Returns
      {| bestFit := type (fold_left promote rest first);
         confidence :=
           Math_round (standardConfidence meanTime (first :: rest)
                                          (fold_left promote rest first));
         results := Array_sort byFitRmse (map toFit (first :: rest)) |}.
Proof.
  intros Hslow Hsorted. unfold selectBest. rewrite Hslow, Hsorted. reflexivity.
Qed.
End ClassifierFacts.

(* ------------------------------------------------------------------ *)
(** ** The classifier: properties that hold in every number system *)

Section ClassifierClaims.
Context {num : Type} `{Number num}.
Local Open Scope num_scope.

Lemma determineComplexity_selectBest (dataPoints : list (Sample num)) (meanTime : num) :
  ss_mean (map (@time num) dataPoints) = Returns meanTime ->
  determineComplexity dataPoints = selectBest meanTime (modelTable dataPoints meanTime).
Proof. intros Hmean. unfold determineComplexity. rewrite Hmean. reflexivity. Qed.

(** Whatever the regime, a non-empty sample sequence is classified, and the
    reported fits are the sorted [models] array, re-sorted. *)
Lemma determineComplexity_returns (dataPoints : list (Sample num)) (meanTime : num) :
  ss_mean (map (@time num) dataPoints) = Returns meanTime ->
  exists r, determineComplexity dataPoints = Returns r
            /\ results r = Array_sort byFitRmse
                             (map toFit (Array_sort byRmse (modelTable dataPoints meanTime))).
Proof.
  intros Hmean. rewrite determineComplexity_selectBest with (meanTime := meanTime) by assumption.
  destruct (meanTime <? lit 1 10000) eqn:Hregime.
  - rewrite selectBest_ultraFast by assumption. eexists. split; reflexivity.
  - destruct (sorted_table_cons dataPoints meanTime) as (first & rest & Hsorted).
    rewrite selectBest_standard with (first := first) (rest := rest) by assumption.
    rewrite Hsorted.
    eexists. split; reflexivity.
Qed.

Lemma results_permutation (dataPoints : list (Sample num)) (meanTime : num) :
  Permutation
    (Array_sort byFitRmse (map toFit (Array_sort byRmse (modelTable dataPoints meanTime))))
    (map toFit (modelTable dataPoints meanTime)).
Proof.
  eapply perm_trans; [apply Permutation_sym, Array_sort_perm|].
  apply Permutation_map, Permutation_sym, Array_sort_perm.
Qed.

(** The catalog is listed in ascending rank order. *)
Lemma modelTable_ranked (dataPoints : list (Sample num)) (meanTime : num) :
  StronglySorted (fun a b => (complexity a <= complexity b)%nat)
                 (modelTable dataPoints meanTime).
Proof.
  unfold modelTable.
  repeat (constructor; [| repeat (constructor; [simpl; lia|]); constructor]).
  constructor.
Qed.

(** The sorted [models] array: ascending RMSE, equal RMSEs in rank order. *)
Lemma sorted_table_ahead (dataPoints : list (Sample num)) (meanTime : num) :
  comparable (map (@rmse num) (modelTable dataPoints meanTime)) = true ->
  StronglySorted (ahead (@rmse num) (@complexity num))
                 (Array_sort byRmse (modelTable dataPoints meanTime)).
Proof.
  intros Hc.
  apply Array_sort_sorted
    with (keys := map (@rmse num) (modelTable dataPoints meanTime)); auto.
  - intros x Hx. now apply in_map.
  - apply modelTable_ranked.
Qed.

(** The reported fits are in non-decreasing RMSE order. *)
Lemma sorted_results (dataPoints : list (Sample num)) (meanTime : num) :
  comparable (map (@rmse num) (modelTable dataPoints meanTime)) = true ->
  StronglySorted (fun a b => (fit_rmse a <=? fit_rmse b) = true)
    (Array_sort byFitRmse (map toFit (Array_sort byRmse (modelTable dataPoints meanTime)))).
Proof.
  intros Hc.
  apply StronglySorted_weaken
    with (R := ahead (@fit_rmse num) (fun _ => 0%nat)); [intros a b [Hle _]; exact Hle|].
  apply Array_sort_sorted
    with (keys := map (@rmse num) (modelTable dataPoints meanTime)); auto.
  - intros x Hx. apply in_map_iff in Hx. destruct Hx as (m0 & <- & Hm).
    change (fit_rmse (toFit m0)) with (rmse m0).
    apply in_map. eapply Permutation_in; [apply Permutation_sym, Array_sort_perm | exact Hm].
  - induction (map toFit (Array_sort byRmse (modelTable dataPoints meanTime)));
      constructor; auto. apply Forall_forall. intros; lia.
Qed.

(** The first model of the sorted array is the simplest of those with the
    lowest RMSE. *)
Lemma first_is_simplest_lowest (dataPoints : list (Sample num)) (meanTime : num)
      (first : Model num) (rest : list (Model num)) (lowest : Model num) :
  comparable (map (@rmse num) (modelTable dataPoints meanTime)) = true ->
  Array_sort byRmse (modelTable dataPoints meanTime) = first :: rest ->
  In lowest (modelTable dataPoints meanTime) ->
  (forall other, In other (modelTable dataPoints meanTime) ->
                 (rmse lowest <=? rmse other) = true) ->
  (complexity first <= complexity lowest)%nat.
Proof.
  intros Hc Hsorted Hin Hmin.
  pose proof (Array_sort_perm byRmse (modelTable dataPoints meanTime)) as Hperm.
  pose proof (@sorted_table_ahead dataPoints meanTime Hc) as Hahead.
  rewrite Hsorted in Hperm, Hahead.
  apply (Permutation_in _ Hperm) in Hin. destruct Hin as [<- | Hin]; [lia|].
  inversion Hahead as [|? ? _ Hall]; subst.
  rewrite Forall_forall in Hall. destruct (Hall lowest Hin) as [_ Htie].
  apply Htie, Hmin.
  eapply Permutation_in; [apply Permutation_sym, Hperm | now left].
Qed.

(** The standard regime returns the model the loop ends on, a member of the
    catalog not more complex than the first model of the sorted array. *)
Lemma standard_best (dataPoints : list (Sample num)) (meanTime : num)
      (first : Model num) (rest : list (Model num)) :
  ss_mean (map (@time num) dataPoints) = Returns meanTime ->
  (meanTime <? lit 1 10000) = false ->
  Array_sort byRmse (modelTable dataPoints meanTime) = first :: rest ->
  exists r,
    determineComplexity dataPoints = Returns r
    /\ bestFit r = type (fold_left promote rest first)
    /\ In (fold_left promote rest first) (modelTable dataPoints meanTime)
    /\ (complexity (fold_left promote rest first) <= complexity first)%nat.
Proof.
  intros Hmean Hregime Hsorted.
  rewrite determineComplexity_selectBest with (meanTime := meanTime) by assumption.
  rewrite selectBest_standard with (first := first) (rest := rest) by assumption.
  eexists. split; [reflexivity|]. split; [reflexivity|]. split.
  - eapply Permutation_in; [|apply scan_member].
    rewrite <- Hsorted. apply Permutation_sym, Array_sort_perm.
  - apply scan_complexity.
Qed.

(** C1 (amended): with fewer than two sizes the facade [runSingleAnalysis]
    returns the degenerate result (bestFit "N/A", confidence 0, no fits)
    at once: the candidate is not invoked and the clock is not read. The
    guard is the facade's; [determineComplexity] has none. *)
Theorem runSingleAnalysis_short_circuit
        (clock : N -> num) (inputSizes : list num) (iterations : nat)
        (inputMode : InputMode) (w : World) :
  (List.length inputSizes < 2)%nat ->
  runSingleAnalysis clock inputSizes iterations inputMode w = Returns (degenerate, w).
Proof.
  intros Hshort. unfold runSingleAnalysis.
  apply Nat.ltb_lt in Hshort. rewrite Hshort. reflexivity.
Qed.

(** C2 (amended): in the standard regime, when the five RMSE values are
    comparable (on doubles: none of them is NaN), the best fit is found by
    scanning the models in ascending RMSE order (equal RMSEs in rank order),
    starting from the first, and promoting a candidate that is simpler than
    the current best fit whenever
    (candidate.rmse - best.rmse) / best.rmse < 0.15, where a zero best.rmse
    is replaced by 1e-9 in the division. *)
Theorem occam_scan_by_rmse (dataPoints : list (Sample num)) (meanTime : num) :
  ss_mean (map (@time num) dataPoints) = Returns meanTime ->
  (meanTime <? lit 1 10000) = false ->
  comparable (map (@rmse num) (modelTable dataPoints meanTime)) = true ->
  exists first rest best r,
    Permutation (first :: rest) (modelTable dataPoints meanTime)
    /\ StronglySorted (ahead (@rmse num) (@complexity num)) (first :: rest)
    /\ Scan first rest best
    /\ (forall other, Scan first rest other -> other = best)
    /\ determineComplexity dataPoints = Returns r
    /\ bestFit r = type best.
Proof.
  intros Hmean Hregime Hc.
  destruct (sorted_table_cons dataPoints meanTime) as (first & rest & Hsorted).
  exists first, rest, (fold_left promote rest first). eexists.
  repeat split.
  - rewrite <- Hsorted. apply Permutation_sym, Array_sort_perm.
  - rewrite <- Hsorted. now apply sorted_table_ahead.
  - apply scan_is_loop.
  - apply scan_unique.
  - rewrite determineComplexity_selectBest with (meanTime := meanTime) by assumption.
    apply selectBest_standard with (first := first) (rest := rest); assumption.
  - reflexivity.
Qed.


(** C6 (amended): the classifier validates nothing. Every non-empty sample
    sequence, whatever its times, is classified, and the five fits reported
    are those computed from all the samples as given: none is dropped or
    clamped, and the InsufficientData result is never produced. *)
Theorem no_sample_rejected (dataPoints : list (Sample num)) (meanTime : num) :
  ss_mean (map (@time num) dataPoints) = Returns meanTime ->
  exists r,
    determineComplexity dataPoints = Returns r
    /\ Permutation (results r) (map toFit (modelTable dataPoints meanTime))
    /\ r <> degenerate.
Proof.
  intros Hmean.
  destruct (@determineComplexity_returns dataPoints meanTime Hmean) as (r & Hr & Hres).
  exists r. split; [exact Hr|].
  pose proof (results_permutation dataPoints meanTime) as Hperm.
  rewrite <- Hres in Hperm. split; [exact Hperm|].
  intros ->. apply Permutation_length in Hperm. discriminate.
Qed.

(** C10: in the standard regime, for RMSE values that are ordinary numbers,
    the returned best fit is a catalog model whose rank does not exceed the
    rank of any model of globally minimum RMSE. *)
Theorem best_fit_not_more_complex (dataPoints : list (Sample num)) (meanTime : num) :
  ss_mean (map (@time num) dataPoints) = Returns meanTime ->
  (meanTime <? lit 1 10000) = false ->
  comparable (map (@rmse num) (modelTable dataPoints meanTime)) = true ->
  exists r best,
    determineComplexity dataPoints = Returns r
    /\ In best (modelTable dataPoints meanTime)
    /\ bestFit r = type best
    /\ forall lowest,
         In lowest (modelTable dataPoints meanTime) ->
         (forall other, In other (modelTable dataPoints meanTime) ->
                        (rmse lowest <=? rmse other) = true) ->
         (complexity best <= complexity lowest)%nat.
Proof.
  intros Hmean Hregime Hc.
  destruct (sorted_table_cons dataPoints meanTime) as (first & rest & Hsorted).
  destruct (@standard_best dataPoints meanTime first rest Hmean Hregime Hsorted)
    as (r & Hr & Hfit & Hin & Hle).
  exists r, (fold_left promote rest first).
  split; [exact Hr|]. split; [exact Hin|]. split; [exact Hfit|].
  intros lowest Hlow Hmin.
  pose proof (@first_is_simplest_lowest dataPoints meanTime first rest lowest
                Hc Hsorted Hlow Hmin).
  lia.
Qed.
End ClassifierClaims.

(* ------------------------------------------------------------------ *)
(** ** The benchmarker *)

Section BenchmarkerClaims.
Context {num : Type} `{Number num}.
Variable clock : N -> num.
Local Open Scope num_scope.

(** The calibration loop entered in any state: how many turns it takes and
    what it leaves. *)
Lemma calibrate_invariant (input : Input) (calStart calEnd : num) (calCount : N) (w : World) :
  exists calEnd' turns w',
    calibrate clock input calStart calEnd calCount w = (calEnd', (calCount + turns)%N, w')
    /\ ((calCount <= safetyLimit)%N -> (calCount + turns <= safetyLimit)%N)
    /\ ((calEnd' - calStart <? #5) = false \/ (safetyLimit <= calCount + turns)%N)
    /\ (forall k, (k < turns)%N ->
                  (readingFrom clock calEnd (reads w) k - calStart <? #5) = true)
    /\ calEnd' = readingFrom clock calEnd (reads w) turns
    /\ calls w' = (calls w + turns)%N
    /\ reads w' = (reads w + turns)%N.
Proof.
  funelim (calibrate clock input calStart calEnd calCount w).
  - match goal with Hq : sumbool_of_bool _ = _ |- _ => clear Hq end.
    match goal with Hg : (_ && _)%bool = true |- _ =>
      apply andb_prop in Hg; destruct Hg as [Hslow Hroom] end.
    apply N.ltb_lt in Hroom. simpl.
    match goal with IH : forall (now : num) (w2 : World), _ |- _ =>
      destruct (IH (clock (reads w))
                   {| reads := N.succ (reads w); calls := N.succ (calls w) |})
        as (calEnd' & turns & w' & Hrun & Hcap & Hexit & Hbefore & Hend & Hcalls & Hreads)
    end.
    simpl in *.
    exists calEnd', (N.succ turns), w'.
    replace (calCount + N.succ turns)%N with (N.succ calCount + turns)%N by lia.
    split; [exact Hrun|]. split; [intros _; apply Hcap; lia|].
    split; [exact Hexit|]. split; [|split; [|split; lia]].
    + intros k Hk. destruct (N.eq_dec k 0) as [-> | Hpos]; [exact Hslow|].
      specialize (Hbefore (N.pred k) ltac:(lia)).
      unfold readingFrom in *. destruct k as [|p]; [congruence|].
      destruct (N.pred (N.pos p)) eqn:Ep.
      * replace (reads w + 0)%N with (reads w) by lia. exact Hbefore.
      * replace (reads w + N.pos p0)%N
          with (N.succ (reads w) + N.pred (N.pos p0))%N by lia.
        exact Hbefore.
    + rewrite Hend. unfold readingFrom.
      destruct turns as [|p]; simpl.
      * f_equal. lia.
      * destruct (N.succ (N.pos p)) eqn:Es; [lia|]. f_equal. lia.
  - match goal with Hq : sumbool_of_bool _ = _ |- _ => clear Hq end.
    exists calEnd, 0%N, w.
    replace (calCount + 0)%N with calCount by lia.
    split; [reflexivity|]. split; [auto|].
    split.
    + match goal with Hg : (_ && _)%bool = false |- _ =>
        apply andb_false_iff in Hg; destruct Hg as [Hfast | Hfull] end; [now left|].
      right. apply N.ltb_ge in Hfull. exact Hfull.
    + split; [intros k Hk; lia|]. split; [reflexivity|]. split; lia.
Qed.

(** C8: whatever the clock reads, the calibration loop of a size returns,
    having taken [calCount] turns, where [calCount] is the first turn after
    which the elapsed time is not below 5, or the ceiling 1000000 when that
    comes first: the elapsed time was below 5 after every earlier turn, and
    at the exit it is not below 5 or the count is 1000000. Each turn invokes
    the candidate once and reads the clock once. *)
Theorem calibration_terminates (input : Input) (calStart : num) (w : World) :
  exists calEnd calCount w',
    calibrate clock input calStart calStart 0 w = (calEnd, calCount, w')
    /\ (calCount <= 1000000)%N
    /\ ((calEnd - calStart <? #5) = false \/ calCount = 1000000%N)
    /\ (forall k, (k < calCount)%N ->
                  (readingFrom clock calStart (reads w) k - calStart <? #5) = true)
    /\ calEnd = readingFrom clock calStart (reads w) calCount
    /\ calls w' = (calls w + calCount)%N
    /\ reads w' = (reads w + calCount)%N.
Proof.
  destruct (calibrate_invariant input calStart calStart 0 w)
    as (calEnd & turns & w' & Hrun & Hcap & Hexit & Hbefore & Hend & Hcalls & Hreads).
  simpl in Hrun. unfold safetyLimit in *.
  exists calEnd, turns, w'.
  assert (Hle : (turns <= 1000000)%N) by (apply Hcap; lia).
  split; [exact Hrun|]. split; [exact Hle|].
  split; [destruct Hexit as [Hslow | Hfull]; [now left | right; lia]|].
  auto.
Qed.

(** generateInputArray returns exactly for the buildable sizes. *)
Lemma makeInput_buildable (inputMode : InputMode) (size : num) :
  buildable inputMode size <-> exists input, makeInput inputMode size = Returns input.
Proof.
  unfold buildable, makeInput. destruct inputMode.
  - destruct (#4294967296 <=? size); split.
    + intros Hb. now specialize (Hb eq_refl).
    + intros [input Hin]. discriminate.
    + eauto.
    + reflexivity.
  - split; [eauto | discriminate].
Qed.

(** The candidate is opaque: invoking it [count] times counts [count] calls. *)
Lemma N_iter_algorithm (count : N) (input : @Input num) (w : World) :
  N.iter count (algorithm input) w = {| reads := reads w; calls := (calls w + count)%N |}.
Proof.
  induction count as [|count IH] using N.peano_ind.
  - destruct w as [r c]. simpl. f_equal. lia.
  - rewrite N.iter_succ, IH. unfold algorithm. simpl. f_equal. lia.
Qed.

(** The measurement loop, for a size whose input can be built and a batch
    size whose loop exits after [count] turns. *)
Lemma measure_runs (remaining : nat) (inputMode : InputMode) (size batchSize : num)
      (count : N) (times : list num) (w : World) :
  buildable inputMode size -> trips batchSize = Some count ->
  measure clock remaining inputMode size batchSize times w
  = Returns (times ++ batchTimings clock (reads w) remaining batchSize,
             {| reads := reads w + 2 * N.of_nat remaining;
                calls := calls w + count * N.of_nat remaining |}).
Proof.
  intros Hb Htrips. apply makeInput_buildable in Hb. destruct Hb as [input Hin].
  revert times w. induction remaining as [|remaining IH]; intros times w.
  - simpl. unfold batchTimings. simpl. rewrite app_nil_r. destruct w as [r c]. simpl.
    repeat f_equal; lia.
  - cbn [measure]. rewrite Hin. cbn [bind]. unfold performance_now. rewrite Htrips.
    rewrite N_iter_algorithm. cbn [reads calls]. rewrite IH. cbn [reads calls].
    do 2 f_equal.
    + rewrite <- app_assoc. f_equal. unfold batchTimings.
      cbn [seq map app]. f_equal.
      * do 2 f_equal; f_equal; lia.
      * rewrite <- seq_shift, map_map. apply map_ext. intros j.
        do 2 f_equal; f_equal; lia.
    + f_equal; lia.
Qed.

(** The body of the loop over the sizes, from the batch size on. *)
Lemma measureSize_runs (iterations : nat) (inputMode : InputMode) (size : num) (w : World)
      (input : @Input num) (batchSize : num) (w1 : World) (count : N) :
  makeInput inputMode size = Returns input ->
  batchSizeFor clock input w = (batchSize, w1) ->
  trips batchSize = Some count ->
  (0 < iterations)%nat ->
  exists avgTime,
    ss_mean (batchTimings clock (reads w1) iterations batchSize) = Returns avgTime
    /\ measureSize clock iterations inputMode size w
       = Returns ({| n := size; time := avgTime |},
                  {| reads := reads w1 + 2 * N.of_nat iterations;
                     calls := calls w1 + count * N.of_nat iterations |}).
Proof.
  intros Hin Hbatch Htrips Hpos.
  assert (Hb : buildable inputMode size) by (apply makeInput_buildable; eauto).
  unfold measureSize. rewrite Hin. cbn [bind]. rewrite Hbatch.
  rewrite (@measure_runs iterations inputMode size batchSize count [] w1 Hb Htrips).
  cbn [bind app].
  assert (Hne : batchTimings clock (reads w1) iterations batchSize <> []).
  { unfold batchTimings. destruct iterations; [lia | discriminate]. }
  rewrite ss_mean_nonempty by exact Hne. cbn [bind].
  eexists. split; reflexivity.
Qed.



(** C9 (amended): the batch size that the measurements of a size use is 1
    when its calibration took at most one invocation, whatever the time
    that took, and otherwise Math.ceil of the quotient
    (15 * calCount) / (calDuration || 0.001) as the number system computes
    it (on doubles: the ceiling of the rounded quotient, a zero or NaN
    duration being replaced by 0.001); there is no other floor. Each
    iteration invokes the candidate as many times as the batch loop turns
    for that batch size, between two readings of the clock, and the time of
    the sample is the mean of the intervals divided by the batch size. *)
Theorem batch_size_in_use
        (inputMode : InputMode) (size : num) (iterations : nat) (w : World)
        (input : @Input num) (calEnd : num) (calCount : N) (w1 : World) (count : N) :
  let calStart := clock (reads w) in
  let calDuration := calEnd - calStart in
  let batchSize :=
    if (1 <? calCount)%N
    then Math_ceil ((#15 * #(Z.of_N calCount))
                    / (if truthy calDuration then calDuration else lit 1 1000))
    else #1 in
  makeInput inputMode size = Returns input ->
  calibrate clock input calStart calStart 0
            {| reads := N.succ (reads w); calls := calls w |} = (calEnd, calCount, w1) ->
  trips batchSize = Some count ->
  (0 < iterations)%nat ->
  exists avgTime w',
    measureSize clock iterations inputMode size w
    = Returns ({| n := size; time := avgTime |}, w')
    /\ ss_mean (batchTimings clock (reads w1) iterations batchSize) = Returns avgTime
    /\ calls w' = (calls w1 + count * N.of_nat iterations)%N
    /\ reads w' = (reads w1 + 2 * N.of_nat iterations)%N.
Proof.
  intros calStart calDuration batchSize Hin Hcal Htrips Hpos.
  assert (Hbatch : batchSizeFor clock input w = (batchSize, w1)).
  { unfold batchSizeFor, performance_now. fold calStart. rewrite Hcal. reflexivity. }
  destruct (@measureSize_runs iterations inputMode size w input batchSize w1 count
              Hin Hbatch Htrips Hpos) as (avgTime & Hmean & Hrun).
  exists avgTime. eexists. split; [exact Hrun|]. split; [exact Hmean|].
  split; reflexivity.
Qed.
End BenchmarkerClaims.

(** A clock that never advances sends the calibration to its ceiling. *)
Lemma calibrate_frozen {num : Type} `{Number num} (c : num) (input : @Input num) (w : World) :
  (c - c <? #5)%num = true ->
  calibrate (fun _ => c) input c c 0 w
  = (c, 1000000%N, {| reads := reads w + 1000000; calls := calls w + 1000000 |}).
Proof.
  intros Hslow.
  destruct (@calibrate_invariant num _ (fun _ => c) input c c 0%N w)
    as (calEnd & turns & w' & Hrun & Hcap & Hexit & _ & Hend & Hcalls & Hreads).
  assert (Hc : calEnd = c).
  { rewrite Hend. unfold readingFrom. destruct turns; reflexivity. }
  rewrite Hc in Hrun, Hexit. clear Hend Hc. unfold safetyLimit in *.
  assert (Hturns : turns = 1000000%N).
  { assert (Hle : (0 + turns <= 1000000)%N) by (apply Hcap; lia).
    destruct Hexit as [Hfast | Hfull]; [congruence | lia]. }
  rewrite Hrun, Hturns. simpl N.add. f_equal.
  destruct w' as [r' c']. simpl in Hcalls, Hreads. subst. reflexivity.
Qed.

(* ------------------------------------------------------------------ *)
(** ** Exact arithmetic *)

Section ExactClaims.
Local Open Scope R_scope.

(** Real numbers are always ordinary numbers for the sort. *)
Lemma exact_comparable (l : list R) : comparable l = true.
Proof.
  unfold comparable.
  apply forallb_forall. intros a _. apply forallb_forall. intros b _.
  simpl. unfold Exact.ltb, Exact.leb.
  repeat (apply andb_true_intro; split).
  - destruct (Rlt_dec 0 (a - b)), (Rlt_dec b a); simpl; try reflexivity; lra.
  - destruct (Rle_dec a b), (Rlt_dec b a); simpl; try reflexivity; lra.
  - destruct (Rlt_dec a b), (Rle_dec a b); simpl; try reflexivity; lra.
  - apply forallb_forall. intros c _.
    destruct (Rle_dec a b), (Rle_dec b c), (Rle_dec a c); simpl; try reflexivity; lra.
Qed.

Lemma exact_trips_total (x : R) : trips x <> None.
Proof. discriminate. Qed.

(** Math.ceil on a real number is the least integer not below it. *)
Lemma exact_ceil (x : R) :
  exists k : Z, Math_ceil x = IZR k /\ IZR k - 1 < x <= IZR k.
Proof.
  exists (- Int_part (- x))%Z. unfold Math_ceil. simpl. unfold Exact.floor.
  destruct (base_Int_part (- x)) as [Hle Hgt].
  rewrite opp_IZR. split; [reflexivity | lra].
Qed.

(** On real numbers the fits come sorted for every non-empty sample
    sequence. *)
Lemma exact_results_sorted (dataPoints : list (Sample R)) :
  dataPoints <> [] ->
  exists r,
    determineComplexity dataPoints = Returns r
    /\ List.length (results r) = 5%nat
    /\ StronglySorted (fun a b => fit_rmse a <= fit_rmse b) (results r).
Proof.
  intros Hne. destruct dataPoints as [|d rest]; [congruence|].
  edestruct (@determineComplexity_returns R exact (d :: rest)) as (r & Hr & Hres);
    [reflexivity|].
  exists r. split; [exact Hr|]. rewrite Hres. split.
  - rewrite (Permutation_length (results_permutation _ _)). reflexivity.
  - eapply StronglySorted_weaken; [|apply sorted_results, exact_comparable].
    intros a b Hle. simpl in Hle. unfold Exact.leb in Hle.
    destruct (Rle_dec (fit_rmse a) (fit_rmse b)); [assumption | discriminate].
Qed.

(** On real numbers the standard regime never returns a model more complex
    than one of lowest RMSE. *)
Lemma exact_best_fit_not_more_complex (dataPoints : list (Sample R)) (meanTime : R) :
  ss_mean (map (@time R) dataPoints) = Returns meanTime ->
  ~ meanTime < 1 / 10000 ->
  exists r best,
    determineComplexity dataPoints = Returns r
    /\ In best (modelTable dataPoints meanTime)
    /\ bestFit r = type best
    /\ forall lowest,
         In lowest (modelTable dataPoints meanTime) ->
         (forall other, In other (modelTable dataPoints meanTime) ->
                        rmse lowest <= rmse other) ->
         (complexity best <= complexity lowest)%nat.
Proof.
  intros Hmean Hslow.
  assert (Hregime : nltb meanTime (lit 1 10000) = false).
  { unfold lit. simpl. unfold Exact.ltb. destruct (Rlt_dec meanTime (1 / 10000)); tauto. }
  destruct (sorted_table_cons dataPoints meanTime) as (first & rest & Hsorted).
  destruct (standard_best _ Hmean Hregime Hsorted) as (r & Hr & Hfit & Hin & Hle).
  exists r, (fold_left promote rest first).
  split; [exact Hr|]. split; [exact Hin|]. split; [exact Hfit|].
  intros lowest Hlow Hmin.
  assert (Hfirst : (complexity first <= complexity lowest)%nat).
  { apply first_is_simplest_lowest
      with (dataPoints := dataPoints) (meanTime := meanTime) (rest := rest); auto.
    - apply exact_comparable.
    - intros other Hother. simpl. unfold Exact.leb.
      destruct (Rle_dec (rmse lowest) (rmse other)) as [|Hn]; [reflexivity|].
      exfalso. apply Hn. now apply Hmin. }
  lia.
Qed.

(** On real numbers too the ultra-fast regime reports confidence 95. *)
Lemma exact_round_95 : Math_round 95 = 95.
Proof.
  unfold Math_round, lit. simpl. unfold Exact.floor, Exact.ltb.
  destruct (base_Int_part 95) as [Hle Hgt].
  assert (Hk : Int_part 95 = 95%Z).
  { assert (H94 : 94 < IZR (Int_part 95)) by lra.
    apply lt_IZR in H94. apply le_IZR in Hle. lia. }
  rewrite Hk. destruct (Rlt_dec (95 - 95) (1 / 2)); [lra | exfalso; lra].
Qed.

Lemma exact_ultra_fast_override (dataPoints : list (Sample R)) (meanTime : R) :
  ss_mean (map (@time R) dataPoints) = Returns meanTime ->
  meanTime < 1 / 10000 ->
  exists r,
    determineComplexity dataPoints = Returns r
    /\ confidence r = 95
    /\ bestFit r = if Rlt_dec (logRMSE dataPoints) (constantRMSE dataPoints meanTime)
                   then "O(log n) - Logarithmic"%string else "O(1) - Constant"%string.
Proof.
  intros Hmean Hfast.
  assert (Hregime : nltb meanTime (lit 1 10000) = true).
  { unfold lit. simpl. unfold Exact.ltb. destruct (Rlt_dec meanTime (1 / 10000)); tauto. }
  rewrite determineComplexity_selectBest with (meanTime := meanTime) by assumption.
  rewrite selectBest_ultraFast by assumption.
  eexists. split; [reflexivity|]. split; [apply exact_round_95|].
  cbn [bestFit nltb exact]. unfold Exact.ltb.
  destruct (Rlt_dec (logRMSE dataPoints) (constantRMSE dataPoints meanTime)); reflexivity.
Qed.

(** Math.round keeps a real number within 0 and 100. *)
Lemma exact_round_bounds (x : R) :
  (x <= 100 -> Math_round x <= 100) /\ (0 <= x -> 0 <= Math_round x).
Proof.
  unfold Math_round, lit. simpl. unfold Exact.floor, Exact.ltb.
  destruct (base_Int_part x) as [Hle Hgt].
  split; intros Hx.
  - destruct (Rlt_dec (x - IZR (Int_part x)) (1 / 2)) as [Hlow | Hhigh]; [lra|].
    assert (Hlt : IZR (Int_part x) < 100) by lra.
    apply lt_IZR in Hlt.
    assert (Hle99 : IZR (Int_part x) <= 99) by (apply IZR_le; lia).
    destruct (Rlt_dec x 0); lra.
  - assert (Hneg : -1 < IZR (Int_part x)) by lra.
    apply lt_IZR in Hneg.
    assert (H0 : 0 <= IZR (Int_part x)) by (apply IZR_le; lia).
    destruct (Rlt_dec (x - IZR (Int_part x)) (1 / 2)); [lra|].
    destruct (Rlt_dec x 0); lra.
Qed.

(** An RMSE is a square root. *)
Lemma exact_rmse_nonneg (actual predicted : list R) : 0 <= calculateRMSE actual predicted.
Proof. unfold calculateRMSE. simpl. apply sqrt_pos. Qed.

Lemma exact_table_nonneg (dataPoints : list (Sample R)) (meanTime : R) (m : Model R) :
  In m (modelTable dataPoints meanTime) -> 0 <= rmse m.
Proof.
  unfold modelTable. simpl.
  intros [<- | [<- | [<- | [<- | [<- | []]]]]]; simpl; apply exact_rmse_nonneg.
Qed.

Lemma exact_fitQuality_bounds (meanTime : R) (best : Model R) :
  0 <= rmse best -> 0 <= fitQuality meanTime best <= 1.
Proof.
  intros Hbest. unfold fitQuality. simpl.
  set (sig := if Exact.ltb 0 meanTime then meanTime else 1).
  assert (Hsig : 0 < sig).
  { unfold sig, Exact.ltb. destruct (Rlt_dec 0 meanTime); lra. }
  assert (Hq : 0 <= rmse best / sig).
  { apply Rmult_le_pos; [assumption|]. left. now apply Rinv_0_lt_compat. }
  split; [apply Rmax_l | apply Rmax_lub; lra].
Qed.

Lemma exact_separation_upper (models : list (Model R)) (best : Model R) :
  separation models best <= 1.
Proof.
  unfold separation.
  match goal with |- (match ?o with Some _ => _ | None => _ end) <= 1 =>
    destruct o; simpl; [apply Rmin_l | lra] end.
Qed.

(** The separation is negative only when the best fit is not a lowest-RMSE
    model, that is, after a promotion. *)
Lemma exact_separation_lower (models : list (Model R)) (best : Model R) :
  (forall m, In m models -> 0 <= rmse best <= rmse m) ->
  0 <= separation models best.
Proof.
  intros Hmin. unfold separation.
  assert (Hin : forall k s, nth_error (Array_sort byRmse models) k = Some s -> In s models).
  { intros k s Hk. apply nth_error_In in Hk.
    eapply Permutation_in; [apply Permutation_sym, Array_sort_perm | exact Hk]. }
  match goal with |- 0 <= (match ?o with Some _ => _ | None => _ end) =>
    assert (Hs : forall s, o = Some s -> In s models); [|destruct o as [s|]] end.
  - intros s. destruct (nth_error (Array_sort byRmse models) 0) as [s0|] eqn:E0; [|discriminate].
    destruct (complexity s0 =? complexity best)%nat.
    + apply Hin.
    + intros [= <-]. now apply (Hin 0%nat).
  - specialize (Hmin s (Hs s eq_refl)). simpl. unfold Exact.truthy.
    apply Rmin_glb; [lra|].
    apply Rmult_le_pos; [lra|]. left. apply Rinv_0_lt_compat.
    destruct (Req_dec_T (rmse s) 0); lra.
  - simpl. lra.
Qed.

(** The confidence never exceeds 100, and it is not negative when the
    returned best fit is a model of lowest RMSE. *)
Lemma exact_confidence_bounds (dataPoints : list (Sample R)) (meanTime : R) :
  ss_mean (map (@time R) dataPoints) = Returns meanTime ->
  exists r best,
    determineComplexity dataPoints = Returns r
    /\ In best (modelTable dataPoints meanTime)
    /\ bestFit r = type best
    /\ confidence r <= 100
    /\ ((forall m, In m (modelTable dataPoints meanTime) -> rmse best <= rmse m) ->
        0 <= confidence r).
Proof.
  intros Hmean.
  rewrite determineComplexity_selectBest with (meanTime := meanTime) by assumption.
  destruct (nltb meanTime (lit 1 10000)) eqn:Hregime.
  - rewrite selectBest_ultraFast by assumption.
    destruct (exact_round_bounds 95) as [Hup Hlow].
    eexists.
    exists (if nltb (logRMSE dataPoints) (constantRMSE dataPoints meanTime)
            then {| type := "O(log n) - Logarithmic"; rmse := logRMSE dataPoints;
                    complexity := 2 |}
            else {| type := "O(1) - Constant"; rmse := constantRMSE dataPoints meanTime;
                    complexity := 1 |}).
    split; [reflexivity|].
    destruct (nltb (logRMSE dataPoints) (constantRMSE dataPoints meanTime));
      (split; [unfold modelTable; simpl; auto|]);
      (split; [reflexivity|]);
      (split; [apply Hup; lra | intros _; apply Hlow; lra]).
  - destruct (sorted_table_cons dataPoints meanTime) as (first & rest & Hsorted).
    pose proof (Array_sort_perm byRmse (modelTable dataPoints meanTime)) as Hperm.
    rewrite Hsorted in Hperm.
    rewrite selectBest_standard with (first := first) (rest := rest) by assumption.
    set (best := fold_left promote rest first).
    assert (Hbest : In best (modelTable dataPoints meanTime)).
    { eapply Permutation_in; [apply Permutation_sym, Hperm | apply scan_member]. }
    pose proof (@exact_table_nonneg dataPoints meanTime best Hbest) as Hpos.
    pose proof (@exact_fitQuality_bounds meanTime best Hpos) as [Hfq0 Hfq1].
    pose proof (exact_separation_upper (first :: rest) best) as Hsep1.
    destruct (exact_round_bounds (standardConfidence meanTime (first :: rest) best))
      as [Hup Hlow].
    eexists. exists best.
    split; [reflexivity|]. split; [exact Hbest|]. split; [reflexivity|]. split.
    + apply Hup. unfold standardConfidence, lit.
      set (fq := fitQuality meanTime best) in *.
      set (sp := separation (first :: rest) best) in *.
      clearbody fq sp. simpl. lra.
    + intros Hmin. apply Hlow.
      assert (Hsep0 : 0 <= separation (first :: rest) best).
      { apply exact_separation_lower. intros m Hm. split; [exact Hpos|].
        apply Hmin. eapply Permutation_in; [apply Permutation_sym, Hperm | exact Hm]. }
      unfold standardConfidence, lit.
      set (fq := fitQuality meanTime best) in *.
      set (sp := separation (first :: rest) best) in *.
      clearbody fq sp. simpl. lra.
Qed.
End ExactClaims.

(* ------------------------------------------------------------------ *)
(** ** The engine on doubles *)

(* ------------------------------------------------------------------ *)
(** ** Facts about doubles *)

(** A square root is never below zero. *)
Lemma sqrt_not_negative (y : float) : (sqrt y <? 0)%float = false.
Proof.
  rewrite ltb_spec, sqrt_spec. change (Prim2SF 0) with (S754_zero false).
  unfold SF64sqrt, SFsqrt.
  destruct (Prim2SF y) as [s | s | | s m e]; try destruct s; try reflexivity.
  destruct (SFsqrt_core_binary prec emax (Z.pos m) e) as [[mz ez] lz].
  unfold binary_round_aux.
  destruct (shr_fexp prec emax mz ez lz) as [mrs' e'].
  destruct (shr_fexp prec emax _ e' loc_Exact) as [mrs'' e''].
  destruct (shr_m mrs''); [reflexivity | | reflexivity].
  destruct (e'' <=? emax - prec)%Z; reflexivity.
Qed.

(** The conversion of a count below 2^53 to a double: a positive finite
    number. *)
Lemma digits2_iter (p : positive) (k : positive) :
  digits2_pos (Pos.iter xO p k) = (digits2_pos p + k)%positive.
Proof.
  induction k as [|k IH] using Pos.peano_ind.
  - simpl. lia.
  - rewrite Pos.iter_succ. simpl. rewrite IH. lia.
Qed.

Lemma digits2_lower (p : positive) : (2 ^ (Z.pos (digits2_pos p) - 1) <= Z.pos p)%Z.
Proof.
  induction p as [p IH | p IH |]; simpl digits2_pos.
  - rewrite Pos2Z.inj_succ. replace (Z.succ (Z.pos (digits2_pos p)) - 1)%Z
      with (Z.succ (Z.pos (digits2_pos p) - 1))%Z by lia.
    rewrite Z.pow_succ_r by lia. lia.
  - rewrite Pos2Z.inj_succ. replace (Z.succ (Z.pos (digits2_pos p)) - 1)%Z
      with (Z.succ (Z.pos (digits2_pos p) - 1))%Z by lia.
    rewrite Z.pow_succ_r by lia. lia.
  - simpl. lia.
Qed.


Lemma fexp_value (x : Z) : (-1021 <= x)%Z -> fexp prec emax x = (x - 53)%Z.
Proof. intros Hx. unfold fexp, emin. change prec with 53%Z. change emax with 1024%Z. lia. Qed.

Lemma binary_round_aux_canonical (m : positive) (e : Z) :
  fexp prec emax (Z.pos (digits2_pos m) + e) = e -> (e <= emax - prec)%Z ->
  binary_round_aux prec emax false (Z.pos m) e loc_Exact = S754_finite false m e.
Proof.
  intros Hcanon Hbound.
  assert (Hshr : shr_fexp prec emax (Z.pos m) e loc_Exact
                 = ({| shr_m := Z.pos m; shr_r := false; shr_s := false |}, e)).
  { unfold shr_fexp. cbn [Zdigits2]. rewrite Hcanon, Z.sub_diag. reflexivity. }
  unfold binary_round_aux. rewrite Hshr. cbn [shr_m loc_of_shr_record round_nearest_even].
  rewrite Hshr. cbn [shr_m].
  apply Z.leb_le in Hbound. rewrite Hbound. reflexivity.
Qed.

Lemma binary_round_integer (p : positive) :
  (Z.pos p < 2 ^ 53)%Z ->
  exists m e, binary_round prec emax false p 0 = S754_finite false m e.
Proof.
  intros Hp.
  assert (Hd : (Z.pos (digits2_pos p) <= 53)%Z).
  { pose proof (digits2_lower p) as Hlow.
    destruct (Z_le_gt_dec (Z.pos (digits2_pos p)) 53) as [|Hgt]; [assumption|].
    exfalso.
    assert (2 ^ 53 <= 2 ^ (Z.pos (digits2_pos p) - 1))%Z by (apply Z.pow_le_mono_r; lia).
    lia. }
  unfold binary_round, shl_align.
  rewrite fexp_value by lia.
  destruct (Z.pos (digits2_pos p) + 0 - 53 - 0)%Z as [|k|k] eqn:Ek; [| lia |].
  - exists p, 0%Z. apply binary_round_aux_canonical.
    + rewrite fexp_value by lia. lia.
    + change prec with 53%Z. change emax with 1024%Z. lia.
  - eexists _, _. apply binary_round_aux_canonical.
    + rewrite digits2_iter, fexp_value by lia. lia.
    + change prec with 53%Z. change emax with 1024%Z. lia.
Qed.

Lemma of_Z_positive_finite (z : Z) :
  (0 < z < 2 ^ 53)%Z ->
  exists m e, Prim2SF (Binary64.of_Z z) = S754_finite false m e.
Proof.
  intros Hz. destruct z as [|p|p]; [lia | | lia].
  unfold Binary64.of_Z. rewrite of_uint63_spec.
  assert (Hw : (2 ^ 53 < Uint63.wB)%Z) by (vm_compute; reflexivity).
  assert (Hint : Uint63Axioms.to_Z (Uint63.of_Z (Z.pos p)) = Z.pos p).
  { rewrite Uint63.of_Z_spec. apply Z.mod_small.
    generalize dependent Uint63.wB. intros. lia. }
  rewrite Hint. cbn [binary_normalize]. apply binary_round_integer. apply Hz.
Qed.

(** Zero divided by a count is zero. *)
Lemma zero_div_count (k : nat) :
  (0 < k)%nat -> (Z.of_nat k < 2 ^ 53)%Z ->
  (0 / Binary64.of_Z (Z.of_nat k))%float = 0%float.
Proof.
  intros Hpos Hlt. apply Prim2SF_inj. rewrite div_spec.
  destruct (@of_Z_positive_finite (Z.of_nat k)) as (m & e & ->); [lia|].
  reflexivity.
Qed.

(** A fold that every element leaves where it is. *)
Lemma fold_left_fixed {A B} (f : A -> B -> A) (a : A) (b : B) (l : list B) :
  f a b = a -> Forall (fun x => x = b) l -> fold_left f l a = a.
Proof.
  intros Hfix Hall. induction Hall as [|x l -> _ IH]; [reflexivity|].
  simpl. now rewrite Hfix.
Qed.



Section DoublesClaims.
Variable Math_log : float -> float.
Local Abbreviation engine := (binary64 Math_log).


(** C3: on doubles, whatever Math.log computes, a non-empty sample sequence
    (so any of at least two samples) whose mean time is below 1e-4 is
    classified as logarithmic when the logarithmic RMSE is strictly below
    the constant RMSE and as constant otherwise, never as one of the other
    three models, with confidence exactly 95. *)
Theorem ultra_fast_override (dataPoints : list (Sample float)) (meanTime : float) :
  @ss_mean float engine (map (@time float) dataPoints) = Returns meanTime ->
  @nltb float engine meanTime (@lit float engine 1 10000) = true ->
  exists r,
    @determineComplexity float engine dataPoints = Returns r
    /\ confidence r = 95%float
    /\ bestFit r =
       (if @nltb float engine (@logRMSE float engine dataPoints)
                              (@constantRMSE float engine dataPoints meanTime)
        then "O(log n) - Logarithmic" else "O(1) - Constant")%string.
Proof.
  intros Hmean Hfast.
  rewrite (@determineComplexity_selectBest float engine dataPoints meanTime Hmean).
  rewrite (@selectBest_ultraFast float engine dataPoints meanTime Hfast).
  eexists. split; [reflexivity|]. split; reflexivity.
Qed.
End DoublesClaims.


(* ------------------------------------------------------------------ *)
(** ** The engine run on examples *)

Section Runs.
Import Examples.
Local Open Scope float_scope.

(** The literals of the source are the doubles the quotients give. *)
Example literals_on_doubles :
  (lit 1 10000 : float) = 0x1.a36e2eb1c432dp-14
  /\ (lit 15 100 : float) = 0x1.3333333333333p-3
  /\ (lit 1 1000000000 : float) = 0x1.12e0be826d695p-30
  /\ (lit 7 10 : float) = 0x1.6666666666666p-1
  /\ (lit 3 10 : float) = 0x1.3333333333333p-2.
Proof. vm_compute. repeat split; reflexivity. Qed.

(** A NaN is not an ordinary number for the sort. *)
Example nan_is_not_comparable : comparable [nan; 1] = false.
Proof. vm_compute. reflexivity. Qed.

(** C1 fails for the classifier itself: one sample is classified as constant
    with confidence 70 and five fits, and no sample at all raises. *)
Lemma single_sample_is_classified :
  (List.length single < 2)%nat
  /\ determineComplexity single
     = Returns {| bestFit := "O(1) - Constant";
                  confidence := 70;
                  results := [ {| fit_type := "O(1) - Constant"; fit_rmse := 0 |};
                               {| fit_type := "O(log n) - Logarithmic"; fit_rmse := 0 |};
                               {| fit_type := "O(n) - Linear"; fit_rmse := 0 |};
                               {| fit_type := "O(n log n) - Linear-ithmic"; fit_rmse := 0 |};
                               {| fit_type := "O(n^2) - Quadratic"; fit_rmse := 0 |} ] |}
  /\ determineComplexity single <> Returns degenerate
  /\ determineComplexity (@nil (Sample float))
     = Throws "mean requires at least one data point".
Proof.
  split; [simpl; lia|]. split; [vm_compute; reflexivity|].
  split; [vm_compute; discriminate | reflexivity].
Qed.

(** The benchmarker on doubles, with a clock that advances by 5 per reading:
    each calibration stops after one invocation, the batch size stays 1, and
    every measured time is 5. *)
Example runAnalysis_on_doubles :
  runAnalysis steadyClock [10; 100] 3 array freshWorld
  = Returns ([point 10 5; point 100 5], {| reads := 16; calls := 108 |}).
Proof. vm_compute. reflexivity. Qed.

Lemma runSingleAnalysis_short_circuit_witness :
  (List.length [10] < 2)%nat
  /\ runSingleAnalysis steadyClock [10] 10 array freshWorld = Returns (degenerate, freshWorld).
Proof.
  split; [simpl; lia|].
  apply (@runSingleAnalysis_short_circuit float doubles steadyClock [10] 10 array freshWorld).
  simpl; lia.
Defined.

(** C2 fails: on the noisy measurements the engine, scanning by RMSE,
    ends on the logarithmic model, while the scan in rank order with the
    plain ratio stops at the linear model. *)
Lemma rank_order_scan_differs :
  ss_mean (map (@time float) noisy) = Returns 3
  /\ (3 <? lit 1 10000) = false
  /\ (exists r, determineComplexity noisy = Returns r
                /\ bestFit r = "O(log n) - Logarithmic"%string)
  /\ option_map (@type float) (occamByRank (modelTable noisy 3)) = Some "O(n) - Linear"%string.
Proof.
  split; [vm_compute; reflexivity|]. split; [vm_compute; reflexivity|].
  split; [eexists; split; vm_compute; reflexivity|].
  vm_compute; reflexivity.
Qed.

Lemma occam_scan_by_rmse_witness :
  ss_mean (map (@time float) noisy) = Returns 3
  /\ (3 <? lit 1 10000) = false
  /\ comparable (map (@rmse float) (modelTable noisy 3)) = true
  /\ exists first rest best r,
       Permutation (first :: rest) (modelTable noisy 3)
       /\ StronglySorted (ahead (@rmse float) (@complexity float)) (first :: rest)
       /\ Scan first rest best
       /\ (forall other, Scan first rest other -> other = best)
       /\ determineComplexity noisy = Returns r
       /\ bestFit r = type best.
Proof.
  split; [vm_compute; reflexivity|]. split; [vm_compute; reflexivity|].
  split; [vm_compute; reflexivity|].
  apply (@occam_scan_by_rmse float doubles noisy 3); vm_compute; reflexivity.
Defined.

Lemma ultra_fast_override_witness :
  ss_mean (map (@time float) tiny) = Returns 0x1p-19
  /\ (0x1p-19 <? lit 1 10000) = true
  /\ exists r,
       determineComplexity tiny = Returns r
       /\ confidence r = 95
       /\ bestFit r = if logRMSE tiny <? constantRMSE tiny 0x1p-19
                       then "O(log n) - Logarithmic"%string else "O(1) - Constant"%string.
Proof.
  split; [vm_compute; reflexivity|]. split; [vm_compute; reflexivity|].
  apply (@ultra_fast_override Examples.Math_log tiny 0x1p-19); vm_compute; reflexivity.
Defined.

(** C4 fails on the noisy measurements: the standard regime applies, the
    Occam scan promotes the logarithmic model above the lowest-RMSE one, the
    separation term turns negative, and the confidence returned is -6. *)
Theorem confidence_below_zero :
  ss_mean (map (@time float) noisy) = Returns 3
  /\ (3 <? lit 1 10000) = false
  /\ exists r,
       determineComplexity noisy = Returns r
       /\ bestFit r = "O(log n) - Logarithmic"%string
       /\ confidence r = -6
       /\ (confidence r <? 0) = true.
Proof.
  split; [vm_compute; reflexivity|]. split; [vm_compute; reflexivity|].
  eexists. repeat split; vm_compute; reflexivity.
Qed.


(** C6 fails: the negative time is not rejected. The engine fits a perfect
    line through all three points; dropping the offending sample, or
    clamping its time to zero, gives other answers. *)
Lemma negative_time_reaches_regression :
  validTime (-6) = false
  /\ (exists r, determineComplexity withNegative = Returns r
                /\ bestFit r = "O(n) - Linear"%string /\ confidence r = 100)
  /\ (exists r, classifyDropping withNegative = Returns r
                /\ bestFit r = "O(log n) - Logarithmic"%string /\ confidence r = 70)
  /\ (exists r, classifyClamping withNegative = Returns r
                /\ bestFit r = "O(n^2) - Quadratic"%string /\ confidence r = 59)
  /\ determineComplexity withNegative <> classifyDropping withNegative
  /\ determineComplexity withNegative <> classifyClamping withNegative.
Proof.
  split; [vm_compute; reflexivity|].
  split; [eexists; repeat split; vm_compute; reflexivity|].
  split; [eexists; repeat split; vm_compute; reflexivity|].
  split; [eexists; repeat split; vm_compute; reflexivity|].
  split; vm_compute; discriminate.
Qed.

Lemma no_sample_rejected_witness :
  ss_mean (map (@time float) withNegative) = Returns 3
  /\ exists r,
       determineComplexity withNegative = Returns r
       /\ Permutation (results r) (map toFit (modelTable withNegative 3))
       /\ r <> degenerate.
Proof.
  split; [vm_compute; reflexivity|].
  apply (@no_sample_rejected float doubles withNegative 3); vm_compute; reflexivity.
Defined.



(** C9 fails: with a clock that advances by 5 per reading the calibration
    stops after one invocation that took 5, and the engine keeps the batch
    size at 1, where ceil(15 * 1 / 5) is 3. *)
Lemma single_calibration_call_keeps_batch_of_one :
  calibrate steadyClock (ArrayOfSize 10) (steadyClock 0) (steadyClock 0) 0
            {| reads := 1; calls := 100 |}
  = (5, 1%N, {| reads := 2; calls := 101 |})
  /\ chooseBatchSize 1 (5 - steadyClock 0) = 1
  /\ batchSizeAsSpecified 1 (5 - steadyClock 0) = 3
  /\ chooseBatchSize 1 (5 - steadyClock 0) <> batchSizeAsSpecified 1 (5 - steadyClock 0).
Proof.
  split; [vm_compute; reflexivity|]. split; [vm_compute; reflexivity|].
  split; [vm_compute; reflexivity|].
  vm_compute. intros Heq.
  assert (Hb : (1 =? 3) = true) by (rewrite Heq; reflexivity).
  vm_compute in Hb. discriminate.
Qed.

(** On doubles the ceiling is that of the rounded quotient: a calibration
    of 4 invocations in 6.666666666666666 gives a batch size of 9, although
    9 * 6.666666666666666 is below 60. *)
Example ceiling_of_the_rounded_quotient :
  chooseBatchSize 4 0x1.aaaaaaaaaaaaap+2 = 9
  /\ (9 * 0x1.aaaaaaaaaaaaap+2 <? 15 * 4) = true.
Proof. split; vm_compute; reflexivity. Qed.

Lemma batch_size_in_use_witness :
  makeInput array 10 = Returns (ArrayOfSize 10)
  /\ calibrate unevenClock (ArrayOfSize 10) (unevenClock 0) (unevenClock 0) 0
               {| reads := 1; calls := 100 |}
     = (0x1.aaaaaaaaaaaaap+2, 4%N, {| reads := 5; calls := 104 |})
  /\ trips (Math_ceil ((15 * 4) / 0x1.aaaaaaaaaaaaap+2)) = Some 9%N
  /\ (0 < 3)%nat
  /\ exists avgTime w',
       measureSize unevenClock 3 array 10 {| reads := 0; calls := 100 |}
       = Returns ({| n := 10; time := avgTime |}, w')
       /\ ss_mean (batchTimings unevenClock 5 3 9) = Returns avgTime
       /\ calls w' = (104 + 9 * N.of_nat 3)%N
       /\ reads w' = (5 + 2 * N.of_nat 3)%N.
Proof.
  split; [vm_compute; reflexivity|]. split; [vm_compute; reflexivity|].
  split; [vm_compute; reflexivity|]. split; [lia|].
  apply (@batch_size_in_use float doubles unevenClock array 10 3
           {| reads := 0; calls := 100 |} (ArrayOfSize 10) 0x1.aaaaaaaaaaaaap+2 4%N
           {| reads := 5; calls := 104 |} 9%N);
    [vm_compute; reflexivity | vm_compute; reflexivity | vm_compute; reflexivity | lia].
Defined.

Lemma best_fit_not_more_complex_witness :
  ss_mean (map (@time float) noisy) = Returns 3
  /\ (3 <? lit 1 10000) = false
  /\ comparable (map (@rmse float) (modelTable noisy 3)) = true
  /\ exists r best,
       determineComplexity noisy = Returns r
       /\ In best (modelTable noisy 3)
       /\ bestFit r = type best
       /\ forall lowest,
            In lowest (modelTable noisy 3) ->
            (forall other, In other (modelTable noisy 3) ->
                           (rmse lowest <=? rmse other)%num = true) ->
            (complexity best <= complexity lowest)%nat.
Proof.
  split; [vm_compute; reflexivity|]. split; [vm_compute; reflexivity|].
  split; [vm_compute; reflexivity|].
  apply (@best_fit_not_more_complex float doubles noisy 3); vm_compute; reflexivity.
Defined.
End Runs.

(* ------------------------------------------------------------------ *)
(** ** The test algorithms *)

Section Fixtures.
Local Open Scope Z_scope.

Lemma element_Some (arr : list Z) (i x : Z) :
  element arr i = Some x -> 0 <= i < Z.of_nat (List.length arr).
Proof.
  unfold element. destruct (Z.ltb_spec i 0) as [Hneg | Hpos]; [discriminate|].
  intros Hnth. assert (Hlt : (Z.to_nat i < List.length arr)%nat).
  { apply nth_error_Some. congruence. }
  lia.
Qed.

Lemma element_In (arr : list Z) (i x : Z) : element arr i = Some x -> In x arr.
Proof.
  unfold element. destruct (i <? 0); [discriminate|]. apply nth_error_In.
Qed.

Lemma In_element (arr : list Z) (x : Z) :
  In x arr -> exists i, element arr i = Some x.
Proof.
  intros Hin. apply In_nth_error in Hin. destruct Hin as (k & Hk).
  exists (Z.of_nat k). unfold element.
  destruct (Z.ltb_spec (Z.of_nat k) 0); [lia|]. now rewrite Nat2Z.id.
Qed.

(** In an ascending array the elements follow the order of the indices. *)
Lemma nth_error_ascending (arr : list Z) (a b : nat) (x y : Z) :
  StronglySorted Z.le arr -> (a <= b)%nat ->
  nth_error arr a = Some x -> nth_error arr b = Some y -> x <= y.
Proof.
  intros Hsorted. revert a b.
  induction Hsorted as [|h t Hs IH Hall]; intros a b Hab Ha Hb.
  - destruct a; discriminate.
  - destruct a as [|a], b as [|b]; simpl in Ha, Hb; try lia.
    + injection Ha as <-. injection Hb as <-. lia.
    + injection Ha as <-. rewrite Forall_forall in Hall.
      apply Hall. eapply nth_error_In; eassumption.
    + apply (IH a b); [lia | assumption | assumption].
Qed.

Lemma element_ascending (arr : list Z) (i j x y : Z) :
  StronglySorted Z.le arr -> i <= j ->
  element arr i = Some x -> element arr j = Some y -> x <= y.
Proof.
  intros Hsorted Hij Hi Hj. unfold element in Hi, Hj.
  destruct (Z.ltb_spec i 0); [discriminate|]. destruct (Z.ltb_spec j 0); [discriminate|].
  apply (@nth_error_ascending arr (Z.to_nat i) (Z.to_nat j) x y); auto. lia.
Qed.

(** The array of the integers below [n]. *)
Lemma integers_below (n : Z) :
  let arr := map Z.of_nat (seq 0 (Z.to_nat n)) in
  List.length arr = Z.to_nat n
  /\ (forall i, 0 <= i < n -> element arr i = Some i)
  /\ (forall i x, element arr i = Some x -> x = i /\ 0 <= i < n)
  /\ StronglySorted Z.lt arr.
Proof.
  intros arr. unfold arr.
  assert (Hnth : forall k x, nth_error (map Z.of_nat (seq 0 (Z.to_nat n))) k = Some x ->
                             x = Z.of_nat k /\ (k < Z.to_nat n)%nat).
  { intros k x Hk. rewrite nth_error_map in Hk.
    destruct (nth_error (seq 0 (Z.to_nat n)) k) as [v|] eqn:Ev; [|discriminate].
    injection Hk as <-.
    assert (Hlt : (k < List.length (seq 0 (Z.to_nat n)))%nat)
      by (apply nth_error_Some; congruence).
    rewrite length_seq in Hlt. split; [|exact Hlt].
    rewrite nth_error_nth' with (d := 0%nat) in Ev by (rewrite length_seq; exact Hlt).
    rewrite seq_nth in Ev by exact Hlt. injection Ev as <-. reflexivity. }
  split; [now rewrite length_map, length_seq|]. split; [|split].
  - intros i Hi. unfold element. destruct (Z.ltb_spec i 0); [lia|].
    rewrite nth_error_map, nth_error_nth' with (d := 0%nat) by (rewrite length_seq; lia).
    rewrite seq_nth by lia. simpl. f_equal. lia.
  - intros i x Hx. unfold element in Hx. destruct (Z.ltb_spec i 0); [discriminate|].
    apply Hnth in Hx. lia.
  - clear Hnth. generalize 0%nat. induction (Z.to_nat n) as [|k IH]; intros s; simpl; constructor.
    + apply IH.
    + apply Forall_forall. intros y Hy. apply in_map_iff in Hy.
      destruct Hy as (v & <- & Hv). apply in_seq in Hv. lia.
Qed.

(** X1: generateInputArray(n) throws a RangeError from n = 2^32 on; below, it
    returns an array of n elements (none for a negative n) whose element at
    index i is i, in strictly ascending order. *)
Theorem generateInputArray_elements (n : Z) :
  (2 ^ 32 <= n -> generateInputArray n = Throws "RangeError: Invalid array length")
  /\ (n < 2 ^ 32 ->
      exists arr,
        generateInputArray n = Returns arr
        /\ List.length arr = Z.to_nat n
        /\ (forall i, 0 <= i < n -> element arr i = Some i)
        /\ (forall i x, element arr i = Some x -> x = i /\ 0 <= i < n)
        /\ StronglySorted Z.lt arr).
Proof.
  unfold generateInputArray. split; intros Hn.
  - destruct (Z.leb_spec (2 ^ 32) n); [reflexivity | lia].
  - destruct (Z.leb_spec (2 ^ 32) n); [lia|].
    eexists. split; [reflexivity|]. apply integers_below.
Qed.

(** The loop returns an index only where the target is. *)
Lemma searchLoop_sound (fuel : nat) (arr : list Z) (target low high r : Z) :
  searchLoop fuel arr target low high = Some r ->
  r = -1 \/ (low <= r <= high /\ element arr r = Some target).
Proof.
  revert low high. induction fuel as [|fuel IH]; intros low high; simpl.
  - destruct (Z.leb_spec low high); [discriminate|]. intros [= <-]. now left.
  - destruct (Z.leb_spec low high) as [Hle | Hgt]; [|intros [= <-]; now left].
    assert (Hmid : low <= (low + high) / 2 <= high).
    { split; [apply Z.div_le_lower_bound | apply Z.div_le_upper_bound]; lia. }
    destruct (element arr ((low + high) / 2)) as [x|] eqn:Ex.
    + destruct (Z.eqb_spec x target) as [-> | Hne].
      * intros [= <-]. right. split; [lia | exact Ex].
      * destruct (x <? target); intros Hrun; apply IH in Hrun;
          destruct Hrun as [-> | [Hr Hel]]; auto; right; split; auto; lia.
    + intros Hrun. apply IH in Hrun.
      destruct Hrun as [-> | [Hr Hel]]; auto; right; split; auto; lia.
Qed.

(** On an ascending array the loop keeps every position of the target
    between [low] and [high]. *)
Lemma searchLoop_complete (fuel : nat) (arr : list Z) (target low high : Z) :
  StronglySorted Z.le arr ->
  0 <= low -> high < Z.of_nat (List.length arr) ->
  searchLoop fuel arr target low high = Some (-1) ->
  forall k, low <= k <= high -> element arr k <> Some target.
Proof.
  intros Hsorted. revert low high.
  induction fuel as [|fuel IH]; intros low high Hlow Hhigh; simpl.
  - destruct (Z.leb_spec low high); [discriminate|]. intros _ k Hk. lia.
  - destruct (Z.leb_spec low high) as [Hle | Hgt]; [|intros _ k Hk; lia].
    assert (Hmid : low <= (low + high) / 2 <= high).
    { split; [apply Z.div_le_lower_bound | apply Z.div_le_upper_bound]; lia. }
    set (mid := (low + high) / 2) in *.
    destruct (element arr mid) as [x|] eqn:Ex.
    + destruct (Z.eqb_spec x target) as [-> | Hne]; [intros [= Hm]; lia|].
      destruct (Z.ltb_spec x target) as [Hlt | Hge]; intros Hrun k Hk Hel.
      * destruct (Z_le_gt_dec k mid) as [Hkm | Hkm].
        -- pose proof (@element_ascending arr k mid target x Hsorted Hkm Hel Ex). lia.
        -- apply (IH (mid + 1) high ltac:(lia) Hhigh Hrun k); [lia | exact Hel].
      * destruct (Z_le_gt_dec mid k) as [Hkm | Hkm].
        -- pose proof (@element_ascending arr mid k x target Hsorted Hkm Ex Hel). lia.
        -- apply (IH low (mid - 1) Hlow ltac:(lia) Hrun k); [lia | exact Hel].
    + exfalso. unfold element in Ex. destruct (Z.ltb_spec mid 0); [lia|].
      apply nth_error_None in Ex. lia.
Qed.

(** Each turn halves the range: [fuel] turns search a range below 2^fuel. *)
Lemma searchLoop_turns (fuel : nat) (arr : list Z) (target low high : Z) :
  high - low + 1 < 2 ^ Z.of_nat fuel ->
  searchLoop fuel arr target low high <> None.
Proof.
  revert low high. induction fuel as [|fuel IH]; intros low high Hsize; simpl.
  - destruct (Z.leb_spec low high); [|discriminate]. simpl in Hsize. lia.
  - destruct (Z.leb_spec low high) as [Hle | Hgt]; [|discriminate].
    rewrite Nat2Z.inj_succ, Z.pow_succ_r in Hsize by lia.
    set (mid := (low + high) / 2).
    assert (Hdiv : 2 * mid <= low + high < 2 * mid + 2).
    { unfold mid. pose proof (Z.div_mod (low + high) 2 ltac:(lia)).
      pose proof (Z.mod_pos_bound (low + high) 2 ltac:(lia)). lia. }
    destruct (element arr mid) as [x|].
    + destruct (x =? target); [discriminate|].
      destruct (x <? target); apply IH; lia.
    + apply IH; lia.
Qed.

Lemma searchLoop_more_fuel (fuel extra : nat) (arr : list Z) (target low high r : Z) :
  searchLoop fuel arr target low high = Some r ->
  searchLoop (fuel + extra) arr target low high = Some r.
Proof.
  revert low high. induction fuel as [|fuel IH]; intros low high; simpl.
  - destruct (Z.leb_spec low high) as [Hle | Hgt]; [discriminate|]. intros [= <-].
    destruct extra; simpl; destruct (Z.leb_spec low high); try lia; reflexivity.
  - destruct (low <=? high); [|trivial].
    destruct (element arr ((low + high) / 2)) as [x|]; [|apply IH].
    destruct (x =? target); [trivial|]. destruct (x <? target); apply IH.
Qed.

Lemma logarithmicTime_returns (arr : list Z) (target : Z) :
  exists r, logarithmicTime arr target = Some r.
Proof.
  unfold logarithmicTime.
  destruct (searchLoop (List.length arr) arr target 0 (Z.of_nat (List.length arr) - 1))
    as [r|] eqn:Erun; [eauto|].
  exfalso. revert Erun. apply searchLoop_turns.
  pose proof (Z.pow_gt_lin_r 2 (Z.of_nat (List.length arr)) ltac:(lia) ltac:(lia)). lia.
Qed.

Lemma logarithmicTime_result (arr : list Z) (target : Z) :
  exists r,
    logarithmicTime arr target = Some r
    /\ (r = -1 \/ (0 <= r < Z.of_nat (List.length arr) /\ element arr r = Some target)).
Proof.
  destruct (logarithmicTime_returns arr target) as (r & Hr). exists r. split; [exact Hr|].
  unfold logarithmicTime in Hr. apply searchLoop_sound in Hr.
  destruct Hr as [-> | [Hrange Hel]]; [now left | right; split; [lia | exact Hel]].
Qed.

Lemma logarithmicTime_absent (arr : list Z) (target : Z) :
  StronglySorted Z.le arr ->
  logarithmicTime arr target = Some (-1) <-> ~ In target arr.
Proof.
  intros Hsorted. split.
  - intros Hrun Hin. apply In_element in Hin. destruct Hin as (k & Hk).
    pose proof (@element_Some arr k target Hk) as Hrange.
    unfold logarithmicTime in Hrun.
    apply (@searchLoop_complete (List.length arr) arr target 0
             (Z.of_nat (List.length arr) - 1) Hsorted ltac:(lia) ltac:(lia) Hrun k);
      [lia | exact Hk].
  - intros Hnot. destruct (logarithmicTime_result arr target) as (r & Hr & [-> | [_ Hel]]);
      [exact Hr|].
    exfalso. apply Hnot. eapply element_In; eassumption.
Qed.

(** X2: on any array of integers, sorted or not, logarithmicTime returns,
    and what it returns is -1 or an index of the array that holds the
    target. *)
Theorem logarithmicTime_sound (arr : list Z) (target : Z) :
  exists r,
    logarithmicTime arr target = Some r
    /\ (r = -1 \/ (0 <= r < Z.of_nat (List.length arr) /\ element arr r = Some target)).
Proof. apply logarithmicTime_result. Qed.

(** X3: on an array in ascending order, logarithmicTime returns -1 exactly
    when the target is not in the array. *)
Theorem logarithmicTime_complete (arr : list Z) (target : Z) :
  StronglySorted Z.le arr ->
  logarithmicTime arr target = Some (-1) <-> ~ In target arr.
Proof. apply logarithmicTime_absent. Qed.

Lemma logarithmicTime_complete_witness :
  StronglySorted Z.le [1; 3; 5; 7]
  /\ (logarithmicTime [1; 3; 5; 7] 4 = Some (-1) <-> ~ In 4 [1; 3; 5; 7]).
Proof.
  assert (Hsorted : StronglySorted Z.le [1; 3; 5; 7]).
  { repeat (constructor; [| repeat (constructor; [lia|]); constructor]). constructor. }
  split; [exact Hsorted|]. apply (@logarithmicTime_complete [1; 3; 5; 7] 4 Hsorted).
Defined.

(** X4: the loop of logarithmicTime takes at most floor(log2 n) + 1 turns on
    an array of n elements: that many turns give the result. *)
Theorem logarithmicTime_turns (arr : list Z) (target : Z) :
  exists r,
    searchLoop (S (Nat.log2 (List.length arr))) arr target
               0 (Z.of_nat (List.length arr) - 1) = Some r
    /\ logarithmicTime arr target = Some r.
Proof.
  set (n := List.length arr).
  destruct (searchLoop (S (Nat.log2 n)) arr target 0 (Z.of_nat n - 1)) as [r|] eqn:Erun.
  - exists r. split; [reflexivity|].
    destruct (logarithmicTime_returns arr target) as (r' & Hr').
    assert (Hfuel : (n + S (Nat.log2 n) = S (Nat.log2 n) + n)%nat) by lia.
    pose proof (@searchLoop_more_fuel _ n _ _ _ _ _ Erun) as Hmore.
    unfold logarithmicTime in Hr'. fold n in Hr'.
    pose proof (@searchLoop_more_fuel _ (S (Nat.log2 n)) _ _ _ _ _ Hr') as Hmore'.
    rewrite Hfuel in Hmore'. unfold logarithmicTime. fold n. congruence.
  - exfalso. revert Erun. apply searchLoop_turns.
    destruct n as [|m]; [simpl; lia|].
    pose proof (Nat.log2_spec (S m) ltac:(lia)) as [_ Hup].
    apply Nat2Z.inj_lt in Hup. rewrite Nat2Z.inj_pow in Hup. simpl Z.of_nat in Hup at 2.
    lia.
Qed.

(** X5: searching the array generateInputArray(n) for k gives back k when
    0 <= k < n, and -1 otherwise; so the worst case the engine measures
    (target -1) never finds anything. *)
Theorem logarithmicTime_generateInputArray (n k : Z) :
  n < 2 ^ 32 ->
  exists arr,
    generateInputArray n = Returns arr
    /\ logarithmicTime arr k = Some (if (0 <=? k) && (k <? n) then k else -1).
Proof.
  intros Hn. unfold generateInputArray. destruct (Z.leb_spec (2 ^ 32) n); [lia|].
  eexists. split; [reflexivity|].
  destruct (integers_below n) as (_ & Hget & Hinv & Hasc).
  set (arr := map Z.of_nat (seq 0 (Z.to_nat n))) in *.
  assert (Hsorted : StronglySorted Z.le arr).
  { eapply StronglySorted_weaken; [|exact Hasc]. intros; lia. }
  destruct (logarithmicTime_result arr k) as (r & Hr & Hcases).
  rewrite Hr. f_equal.
  destruct (Z.leb_spec 0 k) as [H0 | H0]; destruct (Z.ltb_spec k n) as [Hk | Hk]; simpl.
  - destruct Hcases as [-> | [_ Hel]]; [|apply Hinv in Hel; lia].
    exfalso. apply (proj1 (@logarithmicTime_absent arr k Hsorted) Hr).
    eapply element_In. apply Hget. lia.
  - destruct Hcases as [-> | [_ Hel]]; [reflexivity | apply Hinv in Hel; lia].
  - destruct Hcases as [-> | [_ Hel]]; [reflexivity | apply Hinv in Hel; lia].
  - destruct Hcases as [-> | [_ Hel]]; [reflexivity | apply Hinv in Hel; lia].
Qed.

Lemma logarithmicTime_generateInputArray_witness :
  1000 < 2 ^ 32
  /\ exists arr,
       generateInputArray 1000 = Returns arr
       /\ logarithmicTime arr (-1) = Some (if (0 <=? -1) && (-1 <? 1000) then -1 else -1).
Proof.
  split; [reflexivity|]. apply (@logarithmicTime_generateInputArray 1000 (-1)). reflexivity.
Defined.

Lemma increment_iter (k : nat) (count : Z) :
  0 <= count <= 2 ^ 53 ->
  Nat.iter k increment count = Z.min (count + Z.of_nat k) (2 ^ 53).
Proof.
  intros Hrange. induction k as [|k IH].
  - simpl. lia.
  - rewrite Nat.iter_succ, IH. unfold increment.
    destruct (Z.eqb_spec (Z.min (count + Z.of_nat k) (2 ^ 53)) (2 ^ 53)); lia.
Qed.

(** X6: quadraticTime returns the square of the array length, the number of
    turns of its inner loop, as long as a double counts it exactly, that is
    up to 2^53, where [count++] stops changing the count. *)
Theorem quadraticTime_counts (arr : list Z) :
  quadraticTime arr
  = Z.min (Z.of_nat (List.length arr) * Z.of_nat (List.length arr)) (2 ^ 53).
Proof.
  unfold quadraticTime. set (n := List.length arr).
  assert (Houter : forall k, Nat.iter k (fun count => Nat.iter n increment count) 0
                             = Z.min (Z.of_nat k * Z.of_nat n) (2 ^ 53)).
  { induction k as [|k IH].
    - simpl. lia.
    - rewrite Nat.iter_succ, IH, increment_iter by lia. lia. }
  apply Houter.
Qed.

Lemma linearTime_partial (k : nat) (acc : Z) :
  2 * fold_left Z.add (map Z.of_nat (seq 0 k)) acc
  = 2 * acc + Z.of_nat k * (Z.of_nat k - 1).
Proof.
  induction k as [|k IH]; [simpl; lia|].
  rewrite seq_S, map_app, fold_left_app. simpl fold_left. lia.
Qed.

(** X7: linearTime on the array generateInputArray(n) returns
    n * (n - 1) / 2, the sum of the indices, for n up to 2^27 (where every
    partial sum is a safe integer). *)
Theorem linearTime_generateInputArray (n : Z) :
  0 <= n <= 2 ^ 27 ->
  exists arr,
    generateInputArray n = Returns arr
    /\ linearTime arr = n * (n - 1) / 2
    /\ linearTime arr < 2 ^ 53.
Proof.
  intros Hn. unfold generateInputArray. destruct (Z.leb_spec (2 ^ 32) n); [lia|].
  eexists. split; [reflexivity|]. unfold linearTime.
  pose proof (linearTime_partial (Z.to_nat n) 0) as Hsum.
  rewrite Z2Nat.id in Hsum by lia.
  set (total := fold_left Z.add (map Z.of_nat (seq 0 (Z.to_nat n))) 0) in *.
  assert (Hhalf : n * (n - 1) / 2 = total).
  { replace (n * (n - 1)) with (total * 2) by lia. apply Z.div_mul. lia. }
  split; [symmetry; exact Hhalf|]. nia.
Qed.

Lemma linearTime_generateInputArray_witness :
  0 <= 4 <= 2 ^ 27
  /\ exists arr,
       generateInputArray 4 = Returns arr
       /\ linearTime arr = 4 * (4 - 1) / 2
       /\ linearTime arr < 2 ^ 53.
Proof.
  split; [lia|]. apply (@linearTime_generateInputArray 4). lia.
Defined.
End Fixtures.

(* ------------------------------------------------------------------ *)
(** ** The engine as a whole *)

Section EngineFacts.
Context {num : Type} `{Number num}.
Local Open Scope num_scope.

Lemma bestFit_in_catalog (dataPoints : list (Sample num)) (meanTime : num) :
  ss_mean (map (@time num) dataPoints) = Returns meanTime ->
  exists r best,
    determineComplexity dataPoints = Returns r
    /\ In best (modelTable dataPoints meanTime)
    /\ bestFit r = type best
    /\ In (toFit best) (results r)
    /\ In (bestFit r) catalogLabels.
Proof.
  intros Hmean.
  assert (Hlabels : forall m, In m (modelTable dataPoints meanTime) ->
            In (type m) catalogLabels).
  { unfold modelTable. simpl. intros m [<- | [<- | [<- | [<- | [<- | []]]]]]; simpl; auto 6. }
  assert (Hlisted : forall m, In m (modelTable dataPoints meanTime) ->
            In (toFit m) (Array_sort byFitRmse
                            (map toFit (Array_sort byRmse (modelTable dataPoints meanTime))))).
  { intros m Hm. eapply Permutation_in; [apply Permutation_sym, results_permutation|].
    now apply in_map. }
  destruct (@determineComplexity_returns num _ dataPoints meanTime Hmean) as (r & Hr & Hres).
  assert (Hbest : exists best, In best (modelTable dataPoints meanTime)
                               /\ bestFit r = type best).
  { rewrite determineComplexity_selectBest with (meanTime := meanTime) in Hr by assumption.
    destruct (meanTime <? lit 1 10000) eqn:Hregime.
    - rewrite selectBest_ultraFast in Hr by assumption.
      assert (Hfit : bestFit r = if logRMSE dataPoints <? constantRMSE dataPoints meanTime
                                 then "O(log n) - Logarithmic"%string
                                 else "O(1) - Constant"%string)
        by (injection Hr as Hr'; rewrite <- Hr'; reflexivity).
      destruct (logRMSE dataPoints <? constantRMSE dataPoints meanTime).
      + exists {| type := "O(log n) - Logarithmic"; rmse := logRMSE dataPoints;
                  complexity := 2 |}.
        split; [unfold modelTable; right; left; reflexivity | exact Hfit].
      + exists {| type := "O(1) - Constant"; rmse := constantRMSE dataPoints meanTime;
                  complexity := 1 |}.
        split; [unfold modelTable; left; reflexivity | exact Hfit].
    - destruct (sorted_table_cons dataPoints meanTime) as (first & rest & Hsorted).
      rewrite selectBest_standard with (first := first) (rest := rest) in Hr by assumption.
      exists (fold_left promote rest first). split.
      + eapply Permutation_in; [|apply scan_member].
        rewrite <- Hsorted. apply Permutation_sym, Array_sort_perm.
      + injection Hr as Hr'. rewrite <- Hr'. reflexivity. }
  destruct Hbest as (best & Hin & Hfit).
  exists r, best. split; [exact Hr|]. split; [exact Hin|]. split; [exact Hfit|].
  split; [rewrite Hres; now apply Hlisted | rewrite Hfit; now apply Hlabels].
Qed.

(** X8: whatever the regime and whatever the numbers (NaN included), the
    best fit of a non-empty sample sequence is the label of one of the five
    catalog models, and that model is among the fits reported. *)
Theorem bestFit_is_reported (dataPoints : list (Sample num)) (meanTime : num) :
  ss_mean (map (@time num) dataPoints) = Returns meanTime ->
  exists r best,
    determineComplexity dataPoints = Returns r
    /\ In best (modelTable dataPoints meanTime)
    /\ bestFit r = type best
    /\ In (toFit best) (results r)
    /\ In (bestFit r) catalogLabels.
Proof. apply bestFit_in_catalog. Qed.
End EngineFacts.

Section FrozenClock.
Local Open Scope R_scope.
Variable c : R.

(** X10: on real numbers, when the clock never advances, the calibration of
    a size stops only at the ceiling, after exactly 1000000 invocations and
    as many readings of the clock, and the batch size chosen from it is
    15000000000. *)
Theorem frozen_clock_calibration (input : Input) (w : World) :
  calibrate (fun _ => c) input c c 0 w
  = (c, 1000000%N, {| reads := reads w + 1000000; calls := calls w + 1000000 |})
  /\ chooseBatchSize 1000000 (c - c) = 15000000000.
Proof.
  split.
  - destruct (@calibrate_invariant R exact (fun _ => c) input c c 0%N w)
      as (calEnd & turns & w' & Hrun & Hcap & Hexit & _ & Hend & Hcalls & Hreads).
    assert (Hc : calEnd = c).
    { rewrite Hend. unfold readingFrom. destruct turns; reflexivity. }
    rewrite Hc in Hrun, Hexit. clear Hend Hc. unfold safetyLimit in *.
    assert (Hturns : turns = 1000000%N).
    { assert (Hle : (0 + turns <= 1000000)%N) by (apply Hcap; lia).
      destruct Hexit as [Hslow | Hfull]; [|lia].
      exfalso. simpl in Hslow. unfold Exact.ltb in Hslow.
      destruct (Rlt_dec (c - c) 5) as [|Hn]; [discriminate | apply Hn; lra]. }
    rewrite Hrun, Hturns. simpl N.add. f_equal.
    destruct w' as [r' c']. simpl in Hcalls, Hreads. subst. reflexivity.
  - unfold chooseBatchSize. change (1 <? 1000000)%N with true. cbv iota.
    match goal with |- Math_ceil ?x = _ =>
      destruct (exact_ceil x) as (k & Hk & Hlo & Hhi); set (q := x) in * end.
    assert (Hq : q = 15000000000).
    { unfold q, lit. simpl. unfold Exact.truthy.
      destruct (Req_dec_T (c - c) 0) as [_ | Hn]; [lra | exfalso; apply Hn; lra]. }
    rewrite Hk. f_equal. rewrite Hq in Hlo, Hhi.
    assert (Hlt : IZR k < IZR 15000000001) by lra.
    apply lt_IZR in Hlt. apply le_IZR in Hhi. lia.
Qed.
End FrozenClock.

Section FrozenClockOnDoubles.
Variable Math_log : float -> float.
Local Abbreviation engine := (binary64 Math_log).
Local Open Scope float_scope.

Lemma doubles_mean_zeros (l : list float) :
  l <> [] -> (Z.of_nat (List.length l) < 2 ^ 53)%Z -> Forall (fun x => x = 0) l ->
  @ss_mean float engine l = Returns 0.
Proof.
  intros Hne Hlen Hall. rewrite ss_mean_nonempty by assumption. f_equal.
  assert (Hsum : @ss_sum float engine l = 0).
  { destruct l as [|x0 l]; [congruence|].
    inversion Hall as [|? ? -> Hrest]; subst. unfold ss_sum.
    rewrite fold_left_fixed with (b := 0); [reflexivity | reflexivity | exact Hrest]. }
  rewrite Hsum. apply zero_div_count; [|exact Hlen].
  destruct l; [congruence | simpl; lia].
Qed.

Variable c : float.
Hypothesis finite_reading : c - c = 0.

(** With a clock stuck at [c] the calibration of any size ends on the batch
    size 15000000000. *)
Lemma batchSizeFor_frozen (input : @Input float) (w : World) :
  @batchSizeFor float engine (fun _ => c) input w
  = (15000000000,
     {| reads := N.succ (reads w) + 1000000; calls := calls w + 1000000 |}).
Proof.
  unfold batchSizeFor, performance_now.
  rewrite calibrate_frozen by (cbn; rewrite finite_reading; reflexivity).
  cbn [reads calls]. f_equal.
  change (@nsub float engine c c) with (c - c). rewrite finite_reading.
  vm_compute. reflexivity.
Qed.

Lemma measureSize_frozen (iterations : nat) (inputMode : InputMode) (size : float) (w : World) :
  (0 < iterations)%nat -> (Z.of_nat iterations < 2 ^ 32)%Z ->
  @buildable float engine inputMode size ->
  exists w', @measureSize float engine (fun _ => c) iterations inputMode size w
             = Returns ({| n := size; time := 0 |}, w').
Proof.
  intros Hpos Hlt Hb. apply makeInput_buildable in Hb. destruct Hb as [input Hin].
  destruct (@measureSize_runs float engine (fun _ => c) iterations inputMode size w input
              15000000000
              {| reads := N.succ (reads w) + 1000000; calls := calls w + 1000000 |}
              15000000000%N Hin (batchSizeFor_frozen input w))
    as (avgTime & Hmean & Hrun); [vm_compute; reflexivity | exact Hpos |].
  rewrite doubles_mean_zeros in Hmean.
  - injection Hmean as <-. eauto.
  - unfold batchTimings. destruct iterations; [lia | discriminate].
  - unfold batchTimings. rewrite length_map, length_seq. lia.
  - unfold batchTimings. apply Forall_forall. intros x Hx.
    apply in_map_iff in Hx. destruct Hx as (j & <- & _).
    change (@nsub float engine c c) with (c - c). rewrite finite_reading. reflexivity.
Qed.

Lemma forEachSize_frozen (iterations : nat) (inputMode : InputMode) (sizes : list float)
      (dataPoints : list (Sample float)) (w : World) :
  (0 < iterations)%nat -> (Z.of_nat iterations < 2 ^ 32)%Z ->
  Forall (@buildable float engine inputMode) sizes ->
  exists w',
    @forEachSize float engine (fun _ => c) iterations inputMode sizes dataPoints w
    = Returns (dataPoints ++ map (fun size => {| n := size; time := 0 |}) sizes, w').
Proof.
  intros Hpos Hlt Hbuild. revert dataPoints w.
  induction Hbuild as [|size sizes Hb _ IH]; intros dataPoints w; cbn [forEachSize map].
  - exists w. now rewrite app_nil_r.
  - destruct (@measureSize_frozen iterations inputMode size w Hpos Hlt Hb) as (w1 & Hrun).
    rewrite Hrun. cbn [bind].
    destruct (IH (dataPoints ++ [{| n := size; time := 0 |}]) w1) as (w' & Hrest).
    exists w'. rewrite Hrest, <- app_assoc. reflexivity.
Qed.

(** Samples whose times are all 0 have mean time 0 and a constant-model RMSE
    of 0. *)
Lemma flat_samples (sizes : list float) :
  sizes <> [] -> (Z.of_nat (List.length sizes) < 2 ^ 32)%Z ->
  let points := map (fun size => {| n := size; time := 0 |}) sizes in
  @ss_mean float engine (map (@time float) points) = Returns 0
  /\ @constantRMSE float engine points 0 = 0.
Proof.
  intros Hne Hlen points.
  assert (Hzeros : Forall (fun x => x = 0) (map (@time float) points)).
  { unfold points. rewrite map_map. apply Forall_forall. intros x Hx.
    apply in_map_iff in Hx. destruct Hx as (? & <- & _). reflexivity. }
  assert (Hcount : List.length (map (@time float) points) = List.length sizes)
    by (unfold points; now rewrite !length_map).
  split.
  - apply doubles_mean_zeros; [| rewrite Hcount; lia | exact Hzeros].
    unfold points. destruct sizes; [congruence | discriminate].
  - unfold constantRMSE, calculateRMSE.
    rewrite fold_left_fixed with (b := (0, 0)); [| reflexivity |].
    + rewrite Hcount.
      change (@ndiv float engine (@of_Z float engine 0)
                (@of_Z float engine (Z.of_nat (List.length sizes))))
        with (0 / Binary64.of_Z (Z.of_nat (List.length sizes))).
      rewrite zero_div_count; [reflexivity | | lia].
      destruct sizes; [congruence | simpl; lia].
    + unfold points. clear. induction sizes as [|size sizes IH]; simpl; constructor; auto.
Qed.

(** X9: on doubles, whatever Math.log computes, when the clock never
    advances from a finite reading, a run over at least two sizes for which
    the input can be built, with at least one iteration (sizes and
    iterations fewer than 2^32, as the arrays holding them), returns, and
    the verdict is always "O(1) - Constant" with confidence 95, whatever the
    candidate. *)
Theorem frozen_clock_says_constant (inputSizes : list float) (iterations : nat)
        (inputMode : InputMode) (w : World) :
  (2 <= List.length inputSizes)%nat -> (Z.of_nat (List.length inputSizes) < 2 ^ 32)%Z ->
  (0 < iterations)%nat -> (Z.of_nat iterations < 2 ^ 32)%Z ->
  Forall (@buildable float engine inputMode) inputSizes ->
  exists r w',
    @runSingleAnalysis float engine (fun _ => c) inputSizes iterations inputMode w
    = Returns (r, w')
    /\ bestFit r = "O(1) - Constant"%string
    /\ confidence r = 95.
Proof.
  intros Hlen Hmax Hpos Hlt Hbuild. unfold runSingleAnalysis.
  destruct (Nat.ltb_spec (List.length inputSizes) 2) as [Hshort | _]; [lia|].
  assert (Hne : inputSizes <> []) by (destruct inputSizes; [simpl in Hlen; lia | discriminate]).
  unfold runAnalysis. destruct inputSizes as [|warmupSize sizes]; [congruence|].
  assert (Hwarm : @buildable float engine inputMode warmupSize)
    by (inversion Hbuild; assumption).
  apply makeInput_buildable in Hwarm. destruct Hwarm as [warmupInput Hin].
  rewrite Hin. cbn [bind].
  match goal with |- context [forEachSize _ iterations inputMode _ [] ?w0] =>
    destruct (@forEachSize_frozen iterations inputMode (warmupSize :: sizes) [] w0
                Hpos Hlt Hbuild) as (w' & Hrun) end.
  rewrite Hrun. cbn [app bind].
  destruct (@flat_samples (warmupSize :: sizes) Hne Hmax) as [Hmean Hflat].
  set (points := map (fun size => {| n := size; time := 0 |}) (warmupSize :: sizes)) in *.
  rewrite (@determineComplexity_selectBest float engine points 0 Hmean).
  rewrite selectBest_ultraFast by reflexivity. cbn [bind].
  eexists _, w'. split; [reflexivity|]. cbn [bestFit confidence].
  split; [|reflexivity].
  rewrite Hflat.
  assert (Hlog : @nltb float engine (@logRMSE float engine points) 0 = false)
    by apply sqrt_not_negative.
  rewrite Hlog. reflexivity.
Qed.
End FrozenClockOnDoubles.

Lemma frozen_clock_says_constant_witness :
  (7 - 7 = 0)%float
  /\ (2 <= List.length [10; 100]%float)%nat
  /\ (Z.of_nat (List.length [10; 100]%float) < 2 ^ 32)%Z
  /\ (0 < 10)%nat
  /\ (Z.of_nat 10 < 2 ^ 32)%Z
  /\ Forall (@buildable float Examples.doubles array) [10; 100]%float
  /\ exists r w',
       @runSingleAnalysis float Examples.doubles (fun _ => 7%float) [10; 100]%float 10 array
                          Examples.freshWorld
       = Returns (r, w')
       /\ bestFit r = "O(1) - Constant"%string
       /\ confidence r = 95%float.
Proof.
  assert (Hbuild : Forall (@buildable float Examples.doubles array) [10; 100]%float)
    by (repeat constructor; intros _; vm_compute; reflexivity).
  split; [reflexivity|]. split; [simpl; lia|]. split; [reflexivity|].
  split; [lia|]. split; [reflexivity|]. split; [exact Hbuild|].
  apply (@frozen_clock_says_constant Examples.Math_log 7%float eq_refl [10; 100]%float 10
           array Examples.freshWorld);
    [simpl; lia | reflexivity | lia | reflexivity | exact Hbuild].
Defined.

(* ------------------------------------------------------------------ *)
(** ** Size plans *)

Section SizePlans.
Local Open Scope Z_scope.

Lemma doublingLoop_closed (turns : nat) (current : Z) :
  doublingLoop turns current = map (fun i => current * 2 ^ Z.of_nat i) (seq 0 turns).
Proof.
  revert current. induction turns as [|turns IH]; intros current; [reflexivity|].
  simpl doublingLoop. rewrite IH. simpl seq. simpl map. f_equal; [lia|].
  rewrite <- seq_shift, map_map. apply map_ext. intros i.
  rewrite Nat2Z.inj_succ, Z.pow_succ_r by lia. lia.
Qed.



(** The web loop entered at [i], with enough turns to reach the end. *)
Lemma appLinearLoop_runs (turns : nat) (i linearEnd linearStep : Z) (acc : list Z) (extra : nat) :
  0 < linearStep ->
  (0 < Z.of_nat turns -> i + (Z.of_nat turns - 1) * linearStep <= linearEnd) ->
  linearEnd < i + Z.of_nat turns * linearStep ->
  appLinearLoop (turns + extra) i linearEnd linearStep acc
  = Some (acc ++ map (fun k => i + Z.of_nat k * linearStep) (seq 0 turns)).
Proof.
  intros Hstep. revert i acc.
  induction turns as [|turns IH]; intros i acc Hlast Hrange.
  - simpl in Hrange. simpl map. rewrite app_nil_r. simpl Nat.add.
    destruct extra; simpl; destruct (Z.leb_spec i linearEnd); try lia; reflexivity.
  - simpl Nat.add. simpl appLinearLoop.
    destruct (Z.leb_spec i linearEnd) as [_ | Hgt]; [|nia].
    rewrite IH by (try intros ?; nia). rewrite <- app_assoc. f_equal. f_equal. simpl.
    f_equal; [lia|]. rewrite <- seq_shift, map_map. apply map_ext. intros k. lia.
Qed.

(** X12: with a positive step (and safe integers, fewer than 2^32 of them)
    the linear plan of the web form is complete after
    (end - start) / step + 1 turns (none when end < start), and it is the
    command-line plan of that many steps: start, start + step, ... up to the
    last value not above end. *)
Theorem appLinear_positive_step (linearStart linearEnd linearStep : Z) (extra : nat) :
  0 < linearStep ->
  safeInteger linearStart -> linearEnd + linearStep < 2 ^ 53 ->
  (linearEnd - linearStart) / linearStep + 1 < 2 ^ 32 ->
  let count := if linearEnd <? linearStart then 0
               else (linearEnd - linearStart) / linearStep + 1 in
  appLinear (Z.to_nat count + extra) linearStart linearEnd linearStep
  = Some (cliLinearSteps linearStart linearStep count)
  /\ Forall (fun size => linearStart <= size <= linearEnd)
            (cliLinearSteps linearStart linearStep count).
Proof.
  intros Hstep _ _ _ count. unfold appLinear, cliLinearSteps.
  assert (Hcount : 0 <= count
                   /\ (0 < count -> linearStart + (count - 1) * linearStep <= linearEnd)
                   /\ linearEnd < linearStart + count * linearStep).
  { unfold count. destruct (Z.ltb_spec linearEnd linearStart) as [Hlt | Hge]; [lia|].
    pose proof (Z.div_mod (linearEnd - linearStart) linearStep ltac:(lia)) as Hdm.
    pose proof (Z.mod_pos_bound (linearEnd - linearStart) linearStep Hstep) as Hmod.
    pose proof (Z.div_pos (linearEnd - linearStart) linearStep ltac:(lia) Hstep).
    nia. }
  destruct Hcount as (Hnonneg & Hlast & Hrange).
  split.
  - rewrite appLinearLoop_runs by (try assumption; rewrite Z2Nat.id by lia; assumption).
    reflexivity.
  - apply Forall_forall. intros size Hin. apply in_map_iff in Hin.
    destruct Hin as (k & <- & Hk). apply in_seq in Hk. nia.
Qed.

Lemma appLinear_positive_step_witness :
  0 < 100
  /\ safeInteger 100 /\ 1000 + 100 < 2 ^ 53 /\ (1000 - 100) / 100 + 1 < 2 ^ 32
  /\ appLinear (Z.to_nat 10 + 0) 100 1000 100
     = Some (cliLinearSteps 100 100 10)
  /\ Forall (fun size => 100 <= size <= 1000) (cliLinearSteps 100 100 10).
Proof.
  split; [lia|]. split; [unfold safeInteger; lia|]. split; [lia|].
  split; [reflexivity|].
  apply (@appLinear_positive_step 100 1000 100 0%nat);
    [lia | unfold safeInteger; lia | lia | reflexivity].
Defined.

(** X13: with a step that is zero or negative and a start not above the end,
    the loop of the web form never leaves through its test: after any
    number of turns (that an array can hold, and that keep the counter a
    safe integer) it is still running. *)
Theorem appLinear_never_exits (fuel : nat) (linearStart linearEnd linearStep : Z) :
  linearStep <= 0 -> linearStart <= linearEnd ->
  Z.of_nat fuel < 2 ^ 32 ->
  safeInteger linearStart -> safeInteger (linearStart + Z.of_nat fuel * linearStep) ->
  appLinear fuel linearStart linearEnd linearStep = None.
Proof.
  intros Hstep Hstart _ _ _. unfold appLinear. generalize (@nil Z).
  revert linearStart Hstart. induction fuel as [|fuel IH]; intros i Hi acc; simpl;
    destruct (Z.leb_spec i linearEnd); try lia; [reflexivity|].
  apply IH. lia.
Qed.

Lemma appLinear_never_exits_witness :
  0 <= 0 /\ 100 <= 1000
  /\ Z.of_nat 1000 < 2 ^ 32
  /\ safeInteger 100 /\ safeInteger (100 + Z.of_nat 1000 * 0)
  /\ appLinear 1000 100 1000 0 = None.
Proof.
  split; [lia|]. split; [lia|]. split; [reflexivity|].
  split; [unfold safeInteger; lia|]. split; [unfold safeInteger; lia|].
  apply (@appLinear_never_exits 1000%nat 100 1000 0);
    [lia | lia | reflexivity | unfold safeInteger; lia | unfold safeInteger; lia].
Defined.

(** X14: the three plans of the command line are strictly ascending and made
    of positive sizes, hence without duplicates, when the start and the step
    are positive (the sizes being safe integers, fewer than 2^32 of them). *)
Theorem cli_plans_ascending (maxPower startSize steps stepSize count : Z) :
  0 < startSize -> 0 < stepSize ->
  Forall safeInteger (cliPowersOf10 maxPower) ->
  Forall safeInteger (cliDoubling startSize steps) ->
  Forall safeInteger (cliLinearSteps startSize stepSize count) -> count < 2 ^ 32 ->
  (StronglySorted Z.lt (cliPowersOf10 maxPower)
   /\ Forall (fun size => 10 <= size) (cliPowersOf10 maxPower))
  /\ (StronglySorted Z.lt (cliDoubling startSize steps)
      /\ Forall (fun size => startSize <= size) (cliDoubling startSize steps))
  /\ (StronglySorted Z.lt (cliLinearSteps startSize stepSize count)
      /\ Forall (fun size => startSize <= size) (cliLinearSteps startSize stepSize count)).
Proof.
  intros Hstart Hstep _ _ _ _.
  assert (Hsorted : forall (f : nat -> Z) (s k : nat),
            (forall i j, (i < j)%nat -> f i < f j) ->
            StronglySorted Z.lt (map f (seq s k))).
  { intros f s k Hmono. revert s. induction k as [|k IH]; intros s; simpl; constructor.
    - apply IH.
    - apply Forall_forall. intros y Hy. apply in_map_iff in Hy.
      destruct Hy as (j & <- & Hj). apply in_seq in Hj. apply Hmono. lia. }
  assert (Hpow : forall b i j, 1 < b -> (i < j)%nat -> b ^ Z.of_nat i < b ^ Z.of_nat j).
  { intros b i j Hb Hij. apply Z.pow_lt_mono_r; lia. }
  split; [|split].
  - unfold cliPowersOf10. split.
    + apply Hsorted. intros i j Hij. apply Hpow; lia.
    + apply Forall_forall. intros y Hy. apply in_map_iff in Hy.
      destruct Hy as (j & <- & Hj). apply in_seq in Hj.
      change 10 with (10 ^ 1) at 1. apply Z.pow_le_mono_r; lia.
  - unfold cliDoubling. rewrite doublingLoop_closed. split.
    + apply Hsorted. intros i j Hij. pose proof (Hpow 2 i j ltac:(lia) Hij). nia.
    + apply Forall_forall. intros y Hy. apply in_map_iff in Hy.
      destruct Hy as (j & <- & Hj).
      pose proof (Z.pow_pos_nonneg 2 (Z.of_nat j) ltac:(lia) ltac:(lia)). nia.
  - unfold cliLinearSteps. split.
    + apply Hsorted. intros i j Hij. nia.
    + apply Forall_forall. intros y Hy. apply in_map_iff in Hy.
      destruct Hy as (j & <- & Hj). nia.
Qed.

Lemma cli_plans_ascending_witness :
  0 < 100 /\ 0 < 1000
  /\ Forall safeInteger (cliPowersOf10 4)
  /\ Forall safeInteger (cliDoubling 100 5)
  /\ Forall safeInteger (cliLinearSteps 100 1000 3)
  /\ 3 < 2 ^ 32
  /\ (StronglySorted Z.lt (cliPowersOf10 4)
      /\ Forall (fun size => 10 <= size) (cliPowersOf10 4))
  /\ (StronglySorted Z.lt (cliDoubling 100 5)
      /\ Forall (fun size => 100 <= size) (cliDoubling 100 5))
  /\ (StronglySorted Z.lt (cliLinearSteps 100 1000 3)
      /\ Forall (fun size => 100 <= size) (cliLinearSteps 100 1000 3)).
Proof.
  assert (Hpowers : Forall safeInteger (cliPowersOf10 4))
    by (repeat constructor; unfold safeInteger; lia).
  assert (Hdoubling : Forall safeInteger (cliDoubling 100 5))
    by (repeat constructor; unfold safeInteger; lia).
  assert (Hlinear : Forall safeInteger (cliLinearSteps 100 1000 3))
    by (repeat constructor; unfold safeInteger; lia).
  split; [lia|]. split; [lia|]. split; [exact Hpowers|]. split; [exact Hdoubling|].
  split; [exact Hlinear|]. split; [reflexivity|].
  apply (@cli_plans_ascending 4 100 5 1000 3);
    [lia | lia | exact Hpowers | exact Hdoubling | exact Hlinear | reflexivity].
Defined.
End SizePlans.

(* ------------------------------------------------------------------ *)
(** ** What is shown of a classification *)

Section DisplayFacts.
Context {num : Type} `{Number num}.
Local Open Scope num_scope.
Variable numberToString : num -> string.

(** X15: the summary that formatResult makes of a classification begins
    with the label cut at its first space: "O(1)", "O(log", "O(n)", "O(n" or
    "O(n^2)", five different texts for the five models; the confidence
    follows exactly when it is at most 75. *)
Theorem formatResult_of_classification (dataPoints : list (Sample num)) (meanTime : num) :
  ss_mean (map (@time num) dataPoints) = Returns meanTime ->
  exists r short,
    determineComplexity dataPoints = Returns r
    /\ In (bestFit r, short)
          [("O(1) - Constant", "O(1)"); ("O(log n) - Logarithmic", "O(log");
           ("O(n) - Linear", "O(n)"); ("O(n log n) - Linear-ithmic", "O(n");
           ("O(n^2) - Quadratic", "O(n^2)")]%string
    /\ formatResult numberToString r
       = if confidence r <=? #75
         then (short ++ " (Conf: " ++ numberToString (confidence r) ++ "%)")%string
         else short.
Proof.
  intros Hmean.
  destruct (@bestFit_in_catalog num _ dataPoints meanTime Hmean)
    as (r & best & Hr & _ & _ & _ & Hlabel).
  exists r, (firstWord (bestFit r)). split; [exact Hr|]. split; [|reflexivity].
  unfold catalogLabels in Hlabel. simpl in Hlabel.
  destruct Hlabel as [<- | [<- | [<- | [<- | [<- | []]]]]]; simpl; auto 6.
Qed.
End DisplayFacts.

(** X16: a best fit the classifier returns passes exactly one of the two
    tests the command line makes on a low-confidence result: it is slow when
    it is the quadratic label and fast-ish otherwise. *)
Theorem fastIsh_or_slow {num : Type} `{Number num}
        (dataPoints : list (Sample num)) (meanTime : num) :
  ss_mean (map (@time num) dataPoints) = Returns meanTime ->
  exists r,
    determineComplexity dataPoints = Returns r
    /\ isFastIsh (bestFit r) = negb (isSlow (bestFit r))
    /\ (isSlow (bestFit r) = true <-> bestFit r = "O(n^2) - Quadratic"%string).
Proof.
  intros Hmean.
  destruct (@bestFit_in_catalog num _ dataPoints meanTime Hmean)
    as (r & best & Hr & _ & _ & _ & Hlabel).
  exists r. split; [exact Hr|].
  unfold catalogLabels in Hlabel. simpl in Hlabel.
  destruct Hlabel as [<- | [<- | [<- | [<- | [<- | []]]]]];
    (split; [reflexivity|]); split; intros Hq; try reflexivity; discriminate.
Qed.

Lemma runAndDisplayAnalysis_no_size {num : Type} `{Number num} (clock : N -> num)
      (inputMode : InputMode) (w : World) :
  runAndDisplayAnalysis clock [] inputMode w
  = Throws "mean requires at least one data point".
Proof. reflexivity. Qed.

(** X17: a plan of the command line asked with a count of zero or less has
    no size, and the analysis the command line then runs (it makes no test
    on the number of sizes) ends in the error of ss.mean. *)
Theorem cli_empty_plan_throws {num : Type} `{Number num} (clock : N -> num)
        (plan : list Z) (start step count : Z) (inputMode : InputMode) (w : World) :
  plan = cliPowersOf10 count \/ plan = cliDoubling start count
  \/ plan = cliLinearSteps start step count ->
  (count <= 0)%Z ->
  plan = []
  /\ runAndDisplayAnalysis clock (map of_Z plan) inputMode w
     = Throws "mean requires at least one data point".
Proof.
  intros Hplan Hcount.
  assert (Hturns : Z.to_nat count = 0%nat) by lia.
  assert (Hempty : plan = []).
  { destruct Hplan as [-> | [-> | ->]];
      unfold cliPowersOf10, cliDoubling, cliLinearSteps; rewrite Hturns; reflexivity. }
  split; [exact Hempty|]. rewrite Hempty. apply runAndDisplayAnalysis_no_size.
Qed.

(* ------------------------------------------------------------------ *)
(** ** The reducer of the web form *)

Section ReducerFacts.

Lemma reducer_keeps_clean (state : State) (action : Action) :
  fromThePage action -> idleOrClean state -> idleOrClean (reducer state action).
Proof.
  unfold idleOrClean. intros Hpage Hclean.
  destruct action as [field value | | c | payload |]; simpl.
  - simpl in Hpage. unfold withKey.
    assert (Hother : String.eqb "isLoading" field = false
                     /\ String.eqb "result" field = false
                     /\ String.eqb "error" field = false).
    { unfold formFields in Hpage. simpl in Hpage.
      repeat (destruct Hpage as [<- | Hpage]; [repeat split; reflexivity|]).
      contradiction. }
    destruct Hother as (-> & -> & ->). exact Hclean.
  - intros _. split; reflexivity.
  - unfold withKey. simpl. discriminate.
  - unfold withKey. simpl. discriminate.
  - exact Hclean.
Qed.

(** X18: starting from the initial state, whatever the page dispatches (its
    form fields through SET_FIELD, and the three analysis actions in any
    order), a state that is loading holds neither a result nor an error: the
    page never shows a stale result or error while an analysis runs. *)
Theorem loading_shows_nothing_stale (actions : list Action) :
  Forall fromThePage actions ->
  fold_left reducer actions initialState "isLoading"%string = VBool true ->
  fold_left reducer actions initialState "result"%string = VNull
  /\ fold_left reducer actions initialState "error"%string = VNull.
Proof.
  intros Hpage.
  change (idleOrClean (fold_left reducer actions initialState)).
  assert (Hinit : idleOrClean initialState) by (unfold idleOrClean; discriminate).
  revert Hinit. generalize initialState.
  induction Hpage as [|action actions Ha _ IH]; intros state Hclean; simpl; [exact Hclean|].
  apply IH. now apply reducer_keeps_clean.
Qed.

Lemma loading_shows_nothing_stale_witness :
  Forall fromThePage [ANALYSIS_SUCCESS 80; SET_FIELD "linearStep" VNaN; START_ANALYSIS]
  /\ fold_left reducer [ANALYSIS_SUCCESS 80; SET_FIELD "linearStep" VNaN; START_ANALYSIS]
                initialState "isLoading"%string = VBool true
  /\ fold_left reducer [ANALYSIS_SUCCESS 80; SET_FIELD "linearStep" VNaN; START_ANALYSIS]
                initialState "result"%string = VNull
  /\ fold_left reducer [ANALYSIS_SUCCESS 80; SET_FIELD "linearStep" VNaN; START_ANALYSIS]
                initialState "error"%string = VNull.
Proof.
  assert (Hpage : Forall fromThePage
                    [ANALYSIS_SUCCESS 80; SET_FIELD "linearStep" VNaN; START_ANALYSIS]).
  { constructor; [exact I|]. constructor; [simpl; auto 12|]. constructor; [exact I|]. constructor. }
  split; [exact Hpage|]. split; [reflexivity|].
  apply (@loading_shows_nothing_stale
           [ANALYSIS_SUCCESS 80; SET_FIELD "linearStep" VNaN; START_ANALYSIS] Hpage).
  reflexivity.
Defined.
End ReducerFacts.

(* ------------------------------------------------------------------ *)
(** ** The earlier calculator.js *)

Section LegacyFacts.
Context {num : Type} `{Number num}.
Variable clock : N -> num.
Local Open Scope num_scope.

Lemma legacy_measure_runs (remaining : nat) (size : num) (times : list num) (w : World) :
  buildable array size ->
  Legacy.measure clock remaining size times w
  = Returns (times ++ Legacy.timings clock (reads w) remaining,
             {| reads := reads w + 2 * N.of_nat remaining;
                calls := calls w + N.of_nat remaining |}).
Proof.
  intros Hb. apply makeInput_buildable in Hb. destruct Hb as [arr Hin].
  revert times w. induction remaining as [|remaining IH]; intros times w.
  - simpl. unfold Legacy.timings. simpl. rewrite app_nil_r. destruct w as [r c]. simpl.
    repeat f_equal; lia.
  - cbn [Legacy.measure]. rewrite Hin. cbn [bind].
    unfold performance_now, algorithm. cbn [reads calls].
    rewrite IH. cbn [reads calls]. do 2 f_equal.
    + rewrite <- app_assoc. f_equal. unfold Legacy.timings.
      cbn [seq map app]. f_equal.
      * f_equal; f_equal; lia.
      * rewrite <- seq_shift, map_map. apply map_ext. intros j.
        f_equal; f_equal; lia.
    + f_equal; lia.
Qed.

Lemma legacy_forEachSize_runs (iterations : nat) (sizes : list num)
      (dataPoints : list (Sample num)) (w : World) :
  (0 < iterations)%nat ->
  Forall (buildable array) sizes ->
  exists more w',
    Legacy.forEachSize clock iterations sizes dataPoints w = Returns (dataPoints ++ more, w')
    /\ map (@n num) more = sizes
    /\ calls w' = (calls w + N.of_nat (iterations * List.length sizes))%N
    /\ reads w' = (reads w + 2 * N.of_nat (iterations * List.length sizes))%N
    /\ forall k d,
         nth_error more k = Some d ->
         ss_mean (Legacy.timings clock (reads w + 2 * N.of_nat (iterations * k)) iterations)
         = Returns (time d).
Proof.
  intros Hpos Hbuild. revert dataPoints w.
  induction Hbuild as [|size sizes Hb _ IH]; intros dataPoints w.
  - exists [], w. cbn [Legacy.forEachSize map List.length]. rewrite app_nil_r, Nat.mul_0_r.
    split; [reflexivity|]. split; [reflexivity|]. split; [lia|]. split; [lia|].
    intros [|k] d Hk; discriminate.
  - cbn [Legacy.forEachSize]. rewrite legacy_measure_runs by exact Hb. cbn [bind app].
    assert (Hne : Legacy.timings clock (reads w) iterations <> []).
    { unfold Legacy.timings. destruct iterations; [lia | discriminate]. }
    rewrite ss_mean_nonempty by exact Hne. cbn [bind].
    match goal with |- context [Legacy.forEachSize _ _ _ ?dps ?w0] =>
      destruct (IH dps w0) as (more & w' & Hrun & Hn & Hcalls & Hreads & Htimes) end.
    cbn [reads calls] in Hcalls, Hreads, Htimes.
    eexists (_ :: more), w'. split; [rewrite Hrun, <- app_assoc; reflexivity|].
    split; [simpl; now rewrite Hn|].
    split; [rewrite Hcalls; simpl List.length; lia|].
    split; [rewrite Hreads; simpl List.length; lia|].
    intros [|k] d Hk.
    + injection Hk as <-. cbn [time]. rewrite Nat.mul_0_r.
      replace (reads w + 2 * N.of_nat 0)%N with (reads w) by lia.
      now apply ss_mean_nonempty.
    + rewrite <- (Htimes k d Hk). f_equal. f_equal. lia.
Qed.

(** One Occam check keeps the model it is given, or moves to the model of
    its label, whose R-squared then tests less than 0.01 below. *)
Lemma legacy_prefer_cases (label : string) (models : list (Legacy.Scored num))
      (best : Legacy.Scored num) :
  In best models ->
  exists best',
    Legacy.prefer label models (Some best) = Some best'
    /\ In best' models
    /\ (best' = best
        \/ (Legacy.type best' = label
            /\ (Legacy.r2 best - Legacy.r2 best' <? lit 1 100) = true)).
Proof.
  intros Hin. unfold Legacy.prefer.
  destruct (find (fun m => String.eqb (Legacy.type m) label) models) as [simple|] eqn:Hfind;
    [|eauto].
  apply find_some in Hfind. destruct Hfind as [Hsimple Hlabel].
  apply String.eqb_eq in Hlabel.
  destruct (negb (String.eqb (Legacy.type best) label)); [|eauto].
  destruct (Legacy.r2 best - Legacy.r2 simple <? lit 1 100) eqn:Hclose; eauto 6.
Qed.

Lemma legacy_prefer_member (label : string) (models : list (Legacy.Scored num))
      (best : Legacy.Scored num) :
  In best models ->
  exists best', Legacy.prefer label models (Some best) = Some best' /\ In best' models.
Proof.
  intros Hin. destruct (legacy_prefer_cases label models best Hin) as (best' & ? & ? & _).
  eauto.
Qed.

Lemma legacy_selectFit_member (table : list (Legacy.Scored num)) :
  table <> [] ->
  exists r best,
    Legacy.selectFit table = Returns r
    /\ Legacy.results r = Array_sort (@Legacy.byR2Descending num _) table
    /\ In best table
    /\ Legacy.bestFit r = Legacy.type best.
Proof.
  intros Hne. unfold Legacy.selectFit.
  pose proof (Array_sort_perm (@Legacy.byR2Descending num _) table) as Hperm.
  destruct (Array_sort (@Legacy.byR2Descending num _) table) as [|top rest] eqn:Hsorted.
  { apply Permutation_sym, Permutation_nil in Hperm. contradiction. }
  cbn [nth_error].
  destruct (@legacy_prefer_member "O(n) - Linear" (top :: rest) top (or_introl eq_refl))
    as (best1 & -> & Hin1).
  destruct (@legacy_prefer_member "O(log n) - Logarithmic" (top :: rest) best1 Hin1)
    as (best2 & -> & Hin2).
  eexists _, best2. split; [reflexivity|]. split; [reflexivity|].
  split; [|reflexivity].
  eapply Permutation_in; [apply Permutation_sym, Hperm | exact Hin2].
Qed.

(** X19: the earlier runAnalysis, asked for at least one iteration on sizes
    below 2^32 (for which generateInputArray returns), returns one sample
    per size in the order given; it calls the candidate five times
    for the warmup (when there is a size) and once per iteration and size,
    reads the clock twice per iteration and size, and the time of the k-th
    sample is the mean of the intervals timed in the k-th group of readings. *)
Theorem legacy_runAnalysis_accounting (inputSizes : list num) (iterations : nat) (w : World) :
  (0 < iterations)%nat ->
  Forall (buildable array) inputSizes ->
  exists dataPoints w',
    Legacy.runAnalysis clock inputSizes iterations w = Returns (dataPoints, w')
    /\ map (@n num) dataPoints = inputSizes
    /\ calls w' = (calls w + (match inputSizes with [] => 0 | _ => 5 end)
                   + N.of_nat (iterations * List.length inputSizes))%N
    /\ reads w' = (reads w + 2 * N.of_nat (iterations * List.length inputSizes))%N
    /\ forall k d,
         nth_error dataPoints k = Some d ->
         ss_mean (Legacy.timings clock (reads w + 2 * N.of_nat (iterations * k)) iterations)
         = Returns (time d).
Proof.
  intros Hpos Hbuild. unfold Legacy.runAnalysis.
  match goal with |- context [bind ?warmup _] =>
    assert (Hwarm : exists w0,
               warmup = Returns w0
               /\ reads w0 = reads w
               /\ calls w0 = (calls w + match inputSizes with [] => 0 | _ => 5 end)%N)
  end.
  { destruct inputSizes as [|warmupSize sizes].
    - exists w. split; [reflexivity|]. split; [reflexivity | lia].
    - assert (Hb : buildable array warmupSize) by (inversion Hbuild; assumption).
      apply makeInput_buildable in Hb. destruct Hb as [arr Hin].
      rewrite Hin. cbn [bind]. rewrite N_iter_algorithm.
      eexists. split; [reflexivity|]. split; reflexivity. }
  destruct Hwarm as (w0 & -> & Hr & Hc). cbn [bind].
  destruct (@legacy_forEachSize_runs iterations inputSizes [] w0 Hpos Hbuild)
    as (more & w' & Hrun & Hn & Hcalls & Hreads & Htimes).
  rewrite Hr in Hreads, Htimes. rewrite Hc in Hcalls.
  exists more, w'. simpl app in Hrun. repeat split; assumption.
Qed.

(** X20: the earlier determineComplexity returns on every sample sequence,
    the empty one included; it reports the four regression models with
    their scores rearranged, its best fit is the label of one of them,
    and so it never answers "O(1) - Constant". *)
Theorem legacy_never_constant (dataPoints : list (Sample num)) :
  exists r best,
    Legacy.determineComplexity dataPoints = Returns r
    /\ Permutation (Legacy.modelTable dataPoints) (Legacy.results r)
    /\ In best (Legacy.modelTable dataPoints)
    /\ Legacy.bestFit r = Legacy.type best
    /\ In (Legacy.bestFit r)
          ["O(n) - Linear"; "O(n^2) - Quadratic"; "O(log n) - Logarithmic";
           "O(n log n) - Linear-ithmic"]%string
    /\ Legacy.bestFit r <> "O(1) - Constant"%string.
Proof.
  destruct (@legacy_selectFit_member (Legacy.modelTable dataPoints))
    as (r & best & Hr & Hres & Hin & Hfit); [discriminate|].
  exists r, best. split; [exact Hr|].
  split; [rewrite Hres; apply Array_sort_perm|].
  split; [exact Hin|]. split; [exact Hfit|].
  rewrite Hfit. unfold Legacy.modelTable in Hin. simpl in Hin.
  destruct Hin as [<- | [<- | [<- | [<- | []]]]]; simpl; split; auto 6; discriminate.
Qed.

(** X21: the best fit of the earlier determineComplexity is reached from
    the first of the reported models in at most two moves: one to the
    linear model, made only when its R-squared tests less than 0.01 below
    that of the first, then one to the logarithmic model, made only when
    its R-squared tests less than 0.01 below that of the model the first
    check ended on, not below that of the first model. *)
Theorem legacy_two_moves (dataPoints : list (Sample num)) :
  exists r top rest mid best,
    Legacy.determineComplexity dataPoints = Returns r
    /\ Legacy.results r = top :: rest
    /\ In mid (Legacy.results r)
    /\ In best (Legacy.results r)
    /\ Legacy.bestFit r = Legacy.type best
    /\ (mid = top
        \/ (Legacy.type mid = "O(n) - Linear"%string
            /\ (Legacy.r2 top - Legacy.r2 mid <? lit 1 100) = true))
    /\ (best = mid
        \/ (Legacy.type best = "O(log n) - Logarithmic"%string
            /\ (Legacy.r2 mid - Legacy.r2 best <? lit 1 100) = true)).
Proof.
  unfold Legacy.determineComplexity, Legacy.selectFit.
  pose proof (Array_sort_perm (@Legacy.byR2Descending num _) (Legacy.modelTable dataPoints))
    as Hperm.
  destruct (Array_sort (@Legacy.byR2Descending num _) (Legacy.modelTable dataPoints))
    as [|top rest].
  { apply Permutation_sym, Permutation_nil in Hperm. discriminate. }
  cbn [nth_error].
  destruct (@legacy_prefer_cases "O(n) - Linear" (top :: rest) top (or_introl eq_refl))
    as (mid & -> & Hmid & Hfirst).
  destruct (@legacy_prefer_cases "O(log n) - Logarithmic" (top :: rest) mid Hmid)
    as (best & -> & Hbest & Hsecond).
  eexists _, top, rest, mid, best. split; [reflexivity|].
  cbn [Legacy.results Legacy.bestFit]. repeat split; assumption.
Qed.
End LegacyFacts.


(** X22: on doubles, whatever Math.log returns, the earlier
    determineComplexity given fewer than two samples scores all four models
    with an R-squared of 1 and answers "O(log n) - Logarithmic". *)
Theorem legacy_too_few_samples (Math_log : float -> float) (dataPoints : list (Sample float)) :
  (List.length dataPoints < 2)%nat ->
  exists r,
    @Legacy.determineComplexity float (binary64 Math_log) dataPoints = Returns r
    /\ Legacy.bestFit r = "O(log n) - Logarithmic"%string
    /\ map (@Legacy.r2 float) (Legacy.results r) = [1; 1; 1; 1]%float.
Proof.
  intros Hlen.
  destruct dataPoints as [|d [|d' rest]]; [| |simpl in Hlen; lia];
    eexists; (split; [vm_compute; reflexivity|]); split; reflexivity.
Qed.

Section LegacyRuns.
Import Examples.

Lemma legacy_runAnalysis_accounting_witness :
  (0 < 3)%nat
  /\ Forall (buildable array) [10%float; 100%float]
  /\ exists dataPoints w',
       Legacy.runAnalysis steadyClock [10%float; 100%float] 3 freshWorld
       = Returns (dataPoints, w')
       /\ map (@n float) dataPoints = [10%float; 100%float]
       /\ calls w' = (calls freshWorld + 5 + N.of_nat (3 * 2))%N
       /\ reads w' = (reads freshWorld + 2 * N.of_nat (3 * 2))%N
       /\ forall k d,
            nth_error dataPoints k = Some d ->
            ss_mean
              (Legacy.timings steadyClock
                 (reads freshWorld + 2 * N.of_nat (3 * k)) 3)
            = Returns (time d).
Proof.
  assert (Hbuild : Forall (buildable array) [10%float; 100%float])
    by (repeat constructor; intros _; vm_compute; reflexivity).
  split; [lia|]. split; [exact Hbuild|].
  apply (@legacy_runAnalysis_accounting float doubles steadyClock
           [10%float; 100%float] 3 freshWorld); [lia | exact Hbuild].
Defined.

Lemma legacy_too_few_samples_witness :
  (List.length single < 2)%nat
  /\ exists r,
       Legacy.determineComplexity single
       = Returns r
       /\ Legacy.bestFit r = "O(log n) - Logarithmic"%string
       /\ map (@Legacy.r2 float) (Legacy.results r) = [1; 1; 1; 1]%float.
Proof.
  split; [simpl; lia|].
  apply (@legacy_too_few_samples Math_log single). simpl; lia.
Defined.
End LegacyRuns.

(* ------------------------------------------------------------------ *)
(** ** No iteration at all *)

Section ZeroIterations.
Context {num : Type} `{Number num}.
Variable clock : N -> num.

(** X23: asked for zero iterations on at least one size, both versions of
    runAnalysis throw, whatever the clock: the RangeError of Array.from, at
    the warmup, when an array is to be built for a first size of 2^32 or
    more; otherwise the error of ss.mean, after the warmup (and, in the
    current version, the calibration of the first size). *)
Theorem zero_iterations_throw
        (warmupSize : num) (sizes : list num) (inputMode : InputMode) (w : World) :
  let tooLarge := (#4294967296 <=? warmupSize)%num in
  runAnalysis clock (warmupSize :: sizes) 0 inputMode w
  = Throws (if match inputMode with array => tooLarge | number => false end
            then "RangeError: Invalid array length"
            else "mean requires at least one data point")
  /\ Legacy.runAnalysis clock (warmupSize :: sizes) 0 w
     = Throws (if tooLarge
               then "RangeError: Invalid array length"
               else "mean requires at least one data point").
Proof.
  intros tooLarge. unfold tooLarge. split.
  - unfold runAnalysis. cbn [forEachSize]. unfold measureSize, makeInput.
    destruct inputMode.
    + destruct (#4294967296 <=? warmupSize)%num; [reflexivity|]. cbn [bind].
      destruct (batchSizeFor clock _ _) as [batchSize w1]. reflexivity.
    + cbn [bind]. destruct (batchSizeFor clock _ _) as [batchSize w1]. reflexivity.
  - unfold Legacy.runAnalysis, makeInput.
    destruct (#4294967296 <=? warmupSize)%num; reflexivity.
Qed.
End ZeroIterations.

(* ------------------------------------------------------------------ *)
(** ** The further facts on the examples *)

Section EngineRuns.
Import Examples.

Lemma bestFit_is_reported_witness :
  ss_mean (map (@time float) noisy) = Returns 3%float
  /\ exists r best,
       determineComplexity noisy = Returns r
       /\ In best (modelTable noisy 3%float)
       /\ bestFit r = type best
       /\ In (toFit best) (results r)
       /\ In (bestFit r) catalogLabels.
Proof.
  split; [vm_compute; reflexivity|].
  apply (@bestFit_is_reported float doubles noisy 3%float).
  vm_compute; reflexivity.
Defined.

Lemma formatResult_of_classification_witness :
  ss_mean (map (@time float) noisy) = Returns 3%float
  /\ exists r short,
       determineComplexity noisy = Returns r
       /\ In (bestFit r, short)
             [("O(1) - Constant", "O(1)"); ("O(log n) - Logarithmic", "O(log");
              ("O(n) - Linear", "O(n)"); ("O(n log n) - Linear-ithmic", "O(n");
              ("O(n^2) - Quadratic", "O(n^2)")]%string
       /\ formatResult (fun _ : float => "-6"%string) r
          = if (confidence r <=? #75)%num
            then (short ++ " (Conf: " ++ "-6" ++ "%)")%string
            else short.
Proof.
  split; [vm_compute; reflexivity|].
  apply (@formatResult_of_classification float doubles (fun _ => "-6"%string)
           noisy 3%float).
  vm_compute; reflexivity.
Defined.

Lemma fastIsh_or_slow_witness :
  ss_mean (map (@time float) noisy) = Returns 3%float
  /\ exists r,
       determineComplexity noisy = Returns r
       /\ isFastIsh (bestFit r) = negb (isSlow (bestFit r))
       /\ (isSlow (bestFit r) = true <-> bestFit r = "O(n^2) - Quadratic"%string).
Proof.
  split; [vm_compute; reflexivity|].
  apply (@fastIsh_or_slow float doubles noisy 3%float).
  vm_compute; reflexivity.
Defined.

Lemma cli_empty_plan_throws_witness :
  (cliPowersOf10 0 = cliPowersOf10 0 \/ cliPowersOf10 0 = cliDoubling 100 0
   \/ cliPowersOf10 0 = cliLinearSteps 100 1000 0)
  /\ (0 <= 0)%Z
  /\ cliPowersOf10 0 = []
  /\ runAndDisplayAnalysis steadyClock (map of_Z (cliPowersOf10 0)) array freshWorld
     = Throws "mean requires at least one data point".
Proof.
  split; [left; reflexivity|]. split; [lia|].
  apply (@cli_empty_plan_throws float doubles steadyClock (cliPowersOf10 0) 100 1000 0
           array freshWorld); [left; reflexivity | lia].
Defined.
End EngineRuns.
